(** * Local Whisper Server: the transcription gateway of whisper-server/main.py

    A shallow embedding of the request handlers of [main.py] and the
    properties of its specification that concern them.

    Modelling choices.
    - A Python [str] is a [string]; a character is a code point below 256.
    - [bytes] is [list byte]; [len] is a Python integer, hence in [Z].
    - A Python [float] is the rational it denotes ([Q]); the two float
      operations of the handler (a subtraction and a multiplication) are
      the fields of the class [FloatOps], so that every theorem holds for
      whatever rounding these operations perform.
    - The file system is a finite map from paths to contents. What the
      operating system and the engine answer during one request (the UUID
      drawn, the outcome of writing the upload, the outcome of removing
      it, the two clock readings) is the record [Env].
    - The handler threads the process state [World] and raises exceptions:
      it lives in the state-and-exception monad [M].
    - Of FastAPI, [respond] keeps what turns the end of the route function
      into an HTTP answer: a returned model is a 200, an [HTTPException]
      is answered by FastAPI's own handler with [{"detail": ...}], and
      only another exception reaches [global_exception_handler]. *)

From Stdlib Require Import ZArith NArith QArith Qabs Ascii String List Lia.
From Stdlib Require Import Init.Byte.
From stdpp Require Import base option gmap strings list fin_maps.

Local Open Scope Z_scope.

(** ** Python built-ins used by the handler *)

(** [len(xs)] *)
Definition len {A : Type} (xs : list A) : Z := Z.of_nat (List.length xs).

(** [str.isspace] on one character: the white space of Unicode that lies
    below code point 256 (TAB LF VT FF CR, FS GS RS US, SPACE, NEL, NBSP). *)
Definition isspace (c : ascii) : bool :=
  let n := N_of_ascii c in
  ((9 <=? n) && (n <=? 13) || (28 <=? n) && (n <=? 32)
   || (n =? 133) || (n =? 160))%N.

(** [s.lstrip()] *)
Fixpoint lstrip (s : string) : string :=
  match s with
  | EmptyString => EmptyString
  | String c s' => if isspace c then lstrip s' else s
  end.

(** [s.rstrip()] *)
Fixpoint rstrip (s : string) : string :=
  match s with
  | EmptyString => EmptyString
  | String c s' =>
      match rstrip s' with
      | EmptyString => if isspace c then EmptyString else String c EmptyString
      | r => String c r
      end
  end.

(** [s.strip()] *)
Definition strip (s : string) : string := rstrip (lstrip s).

(** [sep.join(xs)] *)
Fixpoint join (sep : string) (xs : list string) : string :=
  match xs with
  | [] => EmptyString
  | [x] => x
  | x :: rest => x +:+ sep +:+ join sep rest
  end.

(** [s.split(sep)] for a separator of one character. The result is never
    empty: the pieces between the occurrences of [sep], in order. *)
Fixpoint split (sep : ascii) (s : string) : list string :=
  match s with
  | EmptyString => [EmptyString]
  | String c s' =>
      if Ascii.eqb c sep then EmptyString :: split sep s'
      else match split sep s' with
           | piece :: pieces => String c piece :: pieces
           | [] => [String c EmptyString]
           end
  end.

(** Python exceptions as the handler sees them: FastAPI's [HTTPException]
    and every other [Exception], the latter carried as its message
    [str(e)]. *)
Inductive exn : Type :=
  | HTTPException (status_code : Z) (detail : string)
  | Exception (message : string).

(** [xs[-1]]: the last item; [IndexError] on the empty list. *)
Definition getitem_last (xs : list string) : exn + string :=
  match last xs with
  | Some x => inr x
  | None => inl (Exception "list index out of range")
  end.

(** [round(x)] of a float: the nearest integer, a tie going to the even
    neighbour. *)
Definition round (x : Q) : Z :=
  let n := Qnum x in
  let d := Z.pos (Qden x) in
  let q := n / d in
  match 2 * (n mod d) ?= d with
  | Lt => q
  | Gt => q + 1
  | Eq => if Z.even q then q else q + 1
  end.

(** Float subtraction and multiplication. *)
Class FloatOps : Type := {
  float_sub : Q -> Q -> Q;
  float_mul : Q -> Q -> Q
}.

(** Both operations round monotonically and keep zero: they preserve
    signs, as IEEE 754 arithmetic does. *)
Class FloatSign (F : FloatOps) : Prop := {
  float_sub_nonneg : forall a b : Q, (b <= a)%Q -> (0 <= float_sub a b)%Q;
  float_mul_nonneg : forall a b : Q, (0 <= a)%Q -> (0 <= b)%Q -> (0 <= float_mul a b)%Q
}.

(** Arithmetic without rounding error. *)
Definition exact_float : FloatOps :=
  {| float_sub := Qminus; float_mul := Qmult |}.

(** ** [uuid.UUID.hex] *)

Definition hex_alphabet : string := "0123456789abcdef".

Definition hex_digit (d : N) : ascii :=
  match String.get (N.to_nat d) hex_alphabet with
  | Some c => c
  | None => "0"%char
  end.

(** The [k] low hexadecimal digits of [n], most significant first, put in
    front of [acc]. *)
Fixpoint hex_digits (k : nat) (n : N) (acc : string) : string :=
  match k with
  | O => acc
  | S k' => hex_digits k' (n / 16)%N (String (hex_digit (n mod 16)%N) acc)
  end.

(** ['%032x' % self.int], for the 128-bit integer of a UUID. *)
Definition hex (int : N) : string := hex_digits 32 int EmptyString.

(** ** Process state, environment and the handler monad *)

Abbreviation FS := (gmap string (list byte)).

Module Segment.
(** A segment yielded by the engine; only its [text] is read. *)
Record t : Type := mk { text : string }.
End Segment.

(** A loaded [faster_whisper.WhisperModel]: [transcribe] receives the
    path, [language], [beam_size], [vad_filter] and the
    [min_silence_duration_ms] of [vad_parameters], and the file system.
    It answers with the segments, or with the message of the exception
    raised by the call or while the segments are drawn; it may leave the
    file system changed. *)
Record WhisperModel : Type := {
  transcribe :
    string -> option string -> Z -> bool -> Z -> FS ->
    (string + list Segment.t) * FS
}.

(** The module-level state: the configured [MODEL_SIZE], the global
    [whisper_model] ([None] until loaded) and the files on disk. *)
Record World : Type := {
  MODEL_SIZE : string;
  whisper_model : option WhisperModel;
  fs : FS
}.

Definition set_fs (w : World) (fs' : FS) : World :=
  {| MODEL_SIZE := MODEL_SIZE w; whisper_model := whisper_model w; fs := fs' |}.

(** How [open(path, "wb")] followed by [f.write(content)] ends: both
    succeed; [open] raises and nothing is created; or the file is created
    and an exception is raised after [written] bytes reached it. *)
Inductive WriteOutcome : Type :=
  | WriteOk
  | OpenFails (message : string)
  | WriteFails (written : nat) (message : string).

(** How [os.remove(path)] of a file that exists ends: the file is
    deleted, or an [OSError] is raised and the file stays. *)
Inductive RemoveOutcome : Type :=
  | RemoveOk
  | RemoveFails (message : string).

(** The answers of the operating system during one request. *)
Record Env : Type := {
  uuid4 : N;
  write_outcome : WriteOutcome;
  remove_outcome : RemoveOutcome;
  time_start : Q;
  time_end : Q
}.

(** The uploaded file. *)
Record UploadFile : Type := {
  filename : string;
  read : list byte
}.

Module TranscriptionResponse.
Record t : Type := mk { text : string; model : string; duration : Q }.
End TranscriptionResponse.

(** Computations that read and update the [World] and end with a value
    or with an exception of type [E]. *)
Definition M (E A : Type) : Type := World -> (E + A) * World.

Definition ret {E A : Type} (a : A) : M E A := fun w => (inr a, w).

Definition raise {E A : Type} (e : E) : M E A := fun w => (inl e, w).

Definition bind {E A B : Type} (m : M E A) (k : A -> M E B) : M E B :=
  fun w =>
    match m w with
    | (inl e, w') => (inl e, w')
    | (inr a, w') => k a w'
    end.

Notation "x <- m ;; k" := (bind m (fun x => k))
  (at level 100, m at level 90, right associativity).
Notation "m ;;; k" := (bind m (fun _ => k))
  (at level 100, right associativity).

(** A value or exception computed without the state. *)
Definition lift {E A : Type} (r : E + A) : M E A := fun w => (r, w).

(** [try: body / except Exception as e: handler e] *)
Definition try_except {E E' A : Type}
    (body : M E A) (handler : E -> M E' A) : M E' A :=
  fun w =>
    match body w with
    | (inl e, w') => handler e w'
    | (inr a, w') => (inr a, w')
    end.

(** [try: body / finally: cleanup]: the cleanup runs on every exit of the
    body; an exception of the cleanup replaces the body's outcome. *)
Definition try_finally {E A : Type} (body : M E A) (cleanup : M E unit) : M E A :=
  fun w =>
    let '(r, w1) := body w in
    match cleanup w1 with
    | (inl e, w2) => (inl e, w2)
    | (inr _, w2) => (r, w2)
    end.

(** Reading the global [whisper_model]. *)
Definition get_whisper_model {E : Type} : M E (option WhisperModel) :=
  fun w => (inr (whisper_model w), w).

(** [with open(path, "wb") as f: f.write(content)] *)
Definition open_wb_write (o : WriteOutcome) (path : string) (content : list byte)
  : M string unit :=
  fun w =>
    match o with
    | WriteOk => (inr tt, set_fs w (<[path := content]> (fs w)))
    | OpenFails msg => (inl msg, w)
    | WriteFails written msg =>
        (inl msg, set_fs w (<[path := firstn written content]> (fs w)))
    end.

(** [segments, info = whisper_model.transcribe(...)] and the draining of
    [segments]. *)
Definition call_transcribe (m : WhisperModel) (path : string)
    (language : option string) (beam_size : Z) (vad_filter : bool)
    (min_silence_duration_ms : Z) : M string (list Segment.t) :=
  fun w =>
    let '(r, fs') :=
      transcribe m path language beam_size vad_filter min_silence_duration_ms (fs w) in
    (r, set_fs w fs').

(** [os.path.exists(path)] *)
Definition os_path_exists {E : Type} (path : string) : M E bool :=
  fun w => (inr (bool_decide (is_Some (fs w !! path))), w).

(** [os.remove(path)]: [FileNotFoundError] when there is no such file;
    otherwise the file is deleted, or an [OSError] is raised and the
    file stays. *)
Definition os_remove (o : RemoveOutcome) (path : string) : M exn unit :=
  fun w =>
    match fs w !! path with
    | None =>
        (inl (Exception ("[Errno 2] No such file or directory: '" +:+ path +:+ "'")), w)
    | Some _ =>
        match o with
        | RemoveOk => (inr tt, set_fs w (delete path (fs w)))
        | RemoveFails msg => (inl (Exception msg), w)
        end
    end.

(** ** The handlers of main.py *)

(** JSON values of the response bodies. *)
Inductive JSON : Type :=
  | JStr (s : string)
  | JNum (x : Q)
  | JBool (b : bool).

(** A [JSONResponse]: status code and the fields of the body, in order. *)
Record Response : Type := JSONResponse {
  status_code : Z;
  content : list (string * JSON)
}.

(** [health_check]: the body of [GET /health]. *)
Definition health_check (w : World) : list (string * JSON) :=
  [ ("status", JStr "ok");
    ("model", JStr (MODEL_SIZE w));
    ("ready", JBool (match whisper_model w with Some _ => true | None => false end)) ].

(** The name of the temporary file:
    [f"/tmp/whisper_{uuid.uuid4().hex}.{file.filename.split('.')[-1]}"]. *)
Definition temp_filename (env : Env) (file : UploadFile) : exn + string :=
  match getitem_last (split "." (filename file)) with
  | inl e => inl e
  | inr ext => inr ("/tmp/whisper_" +:+ hex (uuid4 env) +:+ "." +:+ ext)
  end.

(** [transcribe_audio], the route function of
    [POST /v1/audio/transcriptions], called once FastAPI has parsed the
    form: [file.read()] is the payload. The two [print] calls, which
    change nothing the handler returns, are left out. *)
Definition transcribe_audio {F : FloatOps} (env : Env)
    (file : UploadFile) (model response_format : string)
    (language timestamp_granularities : option string)
  : M exn TranscriptionResponse.t :=
  loaded <- get_whisper_model ;;
  match loaded with
  | None =>
      raise (HTTPException 503
               "Whisper model not loaded. Please wait for server to initialize.")
  | Some whisper =>
      let content := read file in
      if len content >? 100 * 1024 * 1024 then
        raise (HTTPException 400 "File too large (max 100MB)")
      else if len content <? 1024 then
        raise (HTTPException 400 "File too small (may be empty)")
      else
        temp <- lift (temp_filename env file) ;;
        try_finally
          (try_except
             (open_wb_write (write_outcome env) temp content ;;;
              let start_time := time_start env in
              segments <- call_transcribe whisper temp language 5 true 100 ;;
              let transcription_text :=
                strip (join " " (map Segment.text segments)) in
              let duration := float_sub (time_end env) start_time in
              ret (TranscriptionResponse.mk transcription_text model
                     (inject_Z (round (float_mul duration 1000)))))
             (fun e => raise (HTTPException 500 ("Transcription failed: " +:+ e))))
          (present <- os_path_exists temp ;;
           if present then os_remove (remove_outcome env) temp else ret tt)
  end.

(** [global_exception_handler], given [str(exc)]. *)
Definition global_exception_handler (str_exc : string) : Response :=
  JSONResponse 500 [("error", JStr str_exc)].

(** FastAPI's handler of an [HTTPException]: its status code and the body
    [{"detail": detail}]. *)
Definition http_exception_handler (status : Z) (detail : string) : Response :=
  JSONResponse status [("detail", JStr detail)].

(** The body FastAPI writes for a returned [TranscriptionResponse]
    ([response_model=TranscriptionResponse]); [duration] is declared
    [float], so the integer from [round] is carried as a float. *)
Definition jsonable (r : TranscriptionResponse.t) : list (string * JSON) :=
  [ ("text", JStr (TranscriptionResponse.text r));
    ("model", JStr (TranscriptionResponse.model r));
    ("duration", JNum (TranscriptionResponse.duration r)) ].

(** What the application answers once the route function has ended: 200
    with the returned model; an [HTTPException] through FastAPI's handler;
    any other exception through [global_exception_handler]. *)
Definition respond (outcome : exn + TranscriptionResponse.t) : Response :=
  match outcome with
  | inr r => JSONResponse 200 (jsonable r)
  | inl (HTTPException status detail) => http_exception_handler status detail
  | inl (Exception message) => global_exception_handler message
  end.

(** [GET /health] *)
Definition GET_health (w : World) : Response := JSONResponse 200 (health_check w).

(** [POST /v1/audio/transcriptions] *)
Definition POST_transcriptions {F : FloatOps} (env : Env)
    (file : UploadFile) (model response_format : string)
    (language timestamp_granularities : option string)
    (w : World) : Response * World :=
  let '(outcome, w') :=
    transcribe_audio env file model response_format language timestamp_granularities w in
  (respond outcome, w').

(** The value of a field of a JSON body. *)
Fixpoint field (key : string) (body : list (string * JSON)) : option JSON :=
  match body with
  | [] => None
  | (k, v) :: rest => if String.eqb k key then Some v else field key rest
  end.

(** ** Vocabulary of the properties *)

(** Every character of [s] is white space. *)
Fixpoint all_space (s : string) : bool :=
  match s with
  | EmptyString => true
  | String c s' => isspace c && all_space s'
  end.

(** [s] starts with white space. *)
Definition head_space (s : string) : bool :=
  match s with
  | EmptyString => false
  | String c _ => isspace c
  end.

(** [s] ends with white space. *)
Fixpoint last_space (s : string) : bool :=
  match s with
  | EmptyString => false
  | String c EmptyString => isspace c
  | String _ s' => last_space s'
  end.

(** [t] is [s] trimmed of leading and trailing white space: [s] is [t]
    between two runs of white space, and [t] neither starts nor ends with
    white space. *)
Definition trimmed (s t : string) : Prop :=
  exists l r : string,
    s = l +:+ t +:+ r /\ all_space l = true /\ all_space r = true /\
    head_space t = false /\ last_space t = false.

(** [c] occurs in [s]. *)
Fixpoint contains (c : ascii) (s : string) : bool :=
  match s with
  | EmptyString => false
  | String c' s' => Ascii.eqb c' c || contains c s'
  end.

(** [c] is a lower-case hexadecimal digit. *)
Definition is_hex (c : ascii) : bool := contains c hex_alphabet.

Fixpoint all_hex (s : string) : bool :=
  match s with
  | EmptyString => true
  | String c s' => is_hex c && all_hex s'
  end.

(** The bounds of the size check. *)
Definition KiB : Z := 1024.
Definition MiB : Z := 1024 * 1024.

(** The specification's names of the rejections. *)
Definition EngineNotReady : Response :=
  http_exception_handler 503
    "Whisper model not loaded. Please wait for server to initialize.".
Definition PayloadTooLarge : Response :=
  http_exception_handler 400 "File too large (max 100MB)".
Definition PayloadTooSmall : Response :=
  http_exception_handler 400 "File too small (may be empty)".

(** The answer to a failure inside the [try] block. *)
Definition TranscriptionFailed (message : string) : Response :=
  http_exception_handler 500 ("Transcription failed: " +:+ message).

(** The answer to a transcription that succeeded. *)
Definition Transcribed (text model : string) (duration : Q) : Response :=
  JSONResponse 200 (jsonable (TranscriptionResponse.mk text model duration)).

(** The float the handler rounds: [(time.time() - start_time) * 1000]. *)
Definition elapsed_ms {F : FloatOps} (env : Env) : Q :=
  float_mul (float_sub (time_end env) (time_start env)) 1000.

(** The [try] block of a request that passed the size check raises an
    exception with the message [msg]: [open] or [write] does, or the
    engine does on the file written at [path]. *)
Definition pipeline_raises (env : Env) (whisper : WhisperModel) (path : string)
    (language : option string) (upload : list byte) (disk : FS) (msg : string) : Prop :=
  match write_outcome env with
  | WriteOk =>
      fst (transcribe whisper path language 5 true 100 (<[path := upload]> disk))
      = inl msg
  | OpenFails m | WriteFails _ m => m = msg
  end.

(** The disk when the [finally] block of a request that passed the size
    check starts: as the engine left it, or as the failed [open] or
    [write] left it. *)
Definition disk_at_cleanup (env : Env) (whisper : WhisperModel) (path : string)
    (language : option string) (upload : list byte) (disk : FS) : FS :=
  match write_outcome env with
  | WriteOk =>
      snd (transcribe whisper path language 5 true 100 (<[path := upload]> disk))
  | OpenFails _ => disk
  | WriteFails written _ => <[path := firstn written upload]> disk
  end.

(** The message of the [OSError] that the [finally] block raises on
    [disk], if it raises: [path] is there and [os.remove] is refused. *)
Definition cleanup_error (env : Env) (disk : FS) (path : string) : option string :=
  match disk !! path, remove_outcome env with
  | Some _, RemoveFails msg => Some msg
  | _, _ => None
  end.

(** ** Sample requests *)

(** An engine that yields two segments and leaves the disk alone. *)
Definition engine_hello : WhisperModel :=
  {| transcribe := fun _ _ _ _ _ disk =>
       (inr [Segment.mk "Hello"; Segment.mk " world "], disk) |}.


(** An engine whose call raises. *)
Definition engine_broken : WhisperModel :=
  {| transcribe := fun _ _ _ _ _ disk => (inl "boom", disk) |}.

Definition world_with (m : option WhisperModel) : World :=
  {| MODEL_SIZE := "small"; whisper_model := m; fs := ∅ |}.

(** The clock advances by a second and a half. *)
Definition env_ok : Env :=
  {| uuid4 := 255; write_outcome := WriteOk; remove_outcome := RemoveOk;
     time_start := 10; time_end := 23 # 2 |}.

(** The clock is set back by one second while the engine runs. *)
Definition env_clock_set_back : Env :=
  {| uuid4 := 255; write_outcome := WriteOk; remove_outcome := RemoveOk;
     time_start := 10; time_end := 9 |}.


(** An upload of [n] zero bytes named [clip.wav]. *)
Definition upload (n : nat) : UploadFile :=
  {| filename := "clip.wav"; read := repeat "000"%byte n |}.

Definition path_ok : string := "/tmp/whisper_000000000000000000000000000000ff.wav".

(** ** Configuration, lifecycle and model listing *)

(** [os.getenv(key, default)]: the value of the variable when it is set,
    the default otherwise. *)
Definition getenv (environ : gmap string string) (key default : string) : string :=
  match environ !! key with
  | Some value => value
  | None => default
  end.

(** [DEVICE = os.getenv("WHISPER_DEVICE", "cpu")] *)
Definition DEVICE (environ : gmap string string) : string :=
  getenv environ "WHISPER_DEVICE" "cpu".

(** [COMPUTE_TYPE = os.getenv("WHISPER_COMPUTE_TYPE", "int8")] *)
Definition COMPUTE_TYPE (environ : gmap string string) : string :=
  getenv environ "WHISPER_COMPUTE_TYPE" "int8".

(** The state once the module is imported:
    [MODEL_SIZE = os.getenv("WHISPER_MODEL", "small")] and
    [whisper_model = None]. *)
Definition module_imported (environ : gmap string string) (disk : FS) : World :=
  {| MODEL_SIZE := getenv environ "WHISPER_MODEL" "small";
     whisper_model := None;
     fs := disk |}.

(** The constructor [WhisperModel(model_size, device=..., compute_type=...)]:
    it answers with the model or with the message of the exception it
    raises, and may change the disk (it fetches the model files). *)
Definition Loader : Type :=
  string -> string -> string -> FS -> (string + WhisperModel) * FS.

(** [lifespan] up to its [yield]: the model is loaded; an exception of
    the constructor is caught and printed, and [whisper_model] keeps its
    value. *)
Definition lifespan_startup (load : Loader) (environ : gmap string string)
    (w : World) : World :=
  let '(r, disk) := load (MODEL_SIZE w) (DEVICE environ) (COMPUTE_TYPE environ) (fs w) in
  match r with
  | inr loaded =>
      {| MODEL_SIZE := MODEL_SIZE w; whisper_model := Some loaded; fs := disk |}
  | inl _ => set_fs w disk
  end.

(** [lifespan] after its [yield]: [whisper_model = None]. *)
Definition lifespan_shutdown (w : World) : World :=
  {| MODEL_SIZE := MODEL_SIZE w; whisper_model := None; fs := fs w |}.

(** The arguments of one call of [transcribe_audio], with what the
    operating system answers during it. *)
Record Call : Type := {
  call_env : Env;
  call_file : UploadFile;
  call_model : string;
  call_response_format : string;
  call_language : option string;
  call_timestamp_granularities : option string
}.

Definition POST_call {F : FloatOps} (c : Call) (w : World) : Response * World :=
  POST_transcriptions (call_env c) (call_file c) (call_model c)
    (call_response_format c) (call_language c) (call_timestamp_granularities c) w.

(** The requests served between startup and shutdown, one after the
    other: the answers in order and the state left. The route function
    awaits nothing after [file.read()], so the event loop runs the rest
    of each call without interleaving another. *)
Fixpoint serve {F : FloatOps} (calls : list Call) (w : World) : list Response * World :=
  match calls with
  | [] => ([], w)
  | c :: rest =>
      let '(answer, w1) := POST_call c w in
      let '(answers, w2) := serve rest w1 in
      (answer :: answers, w2)
  end.

(** [lifespan] around the requests it serves. *)
Definition lifespan {F : FloatOps} (load : Loader) (environ : gmap string string)
    (calls : list Call) (w : World) : list Response * World :=
  let '(answers, w') := serve calls (lifespan_startup load environ w) in
  (answers, lifespan_shutdown w').

(** [int(x)] of a float: truncation towards zero. *)
Definition int_of_float (x : Q) : Z := Z.quot (Qnum x) (Z.pos (Qden x)).

(** JSON with nested values, for the body of [list_models]. *)
#[warnings="-register-all"]
Inductive JSONTree : Type :=
  | TStr (s : string)
  | TInt (n : Z)
  | TList (items : list JSONTree)
  | TDict (fields : list (string * JSONTree)).

(** [list_models]: the body of [GET /v1/models]; [now] is [time.time()]. *)
Definition list_models (now : Q) : JSONTree :=
  TDict
    [ ("object", TStr "list");
      ("data",
       TList
         [ TDict
             [ ("id", TStr "whisper-1");
               ("object", TStr "model");
               ("created", TInt (int_of_float now));
               ("owned_by", TStr "local") ] ]) ].

(** The value of a field of a [TDict]. *)
Definition tree_field (key : string) (t : JSONTree) : option JSONTree :=
  match t with
  | TDict fields =>
      snd <$> List.find (fun kv => String.eqb (fst kv) key) fields
  | _ => None
  end.

(** ** More vocabulary *)

(** [whisper] leaves the disk as it finds it when called the way the
    handler calls it. *)
Definition engine_keeps_disk (whisper : WhisperModel) : Prop :=
  forall (path : string) (language : option string) (disk : FS),
    snd (transcribe whisper path language 5 true 100 disk) = disk.

(** The state [w] with another value of [whisper_model]. *)
Definition with_model (w : World) (m : option WhisperModel) : World :=
  {| MODEL_SIZE := MODEL_SIZE w; whisper_model := m; fs := fs w |}.

(** The value of a hexadecimal digit, as [int(c, 16)] reads it. *)
Definition hex_value (c : ascii) : N :=
  let n := N_of_ascii c in
  if ((48 <=? n) && (n <=? 57))%N then (n - 48)%N else (n - 87)%N.

(** [int(s, 16)], continued from the value [acc] of the digits read. *)
Fixpoint unhex_from (acc : N) (s : string) : N :=
  match s with
  | EmptyString => acc
  | String c s' => unhex_from (16 * acc + hex_value c)%N s'
  end.

Definition unhex (s : string) : N := unhex_from 0%N s.


Definition engine_eraser : WhisperModel :=
  {| transcribe := fun path _ _ _ _ disk => (inl "gone", delete path disk) |}.

(** A constructor that succeeds only for the model size [small]. *)
Definition load_small : Loader :=
  fun model_size _ _ disk =>
    (if String.eqb model_size "small" then inr engine_hello
     else inl "unknown model size", disk).

Definition call_ok (n : nat) : Call :=
  {| call_env := env_ok; call_file := upload n; call_model := "whisper-1";
     call_response_format := "json"; call_language := None;
     call_timestamp_granularities := None |}.

(** An engine that yields [Hello] and [ world ] when called with the
    handler's parameters and raises otherwise. *)
Definition engine_picky : WhisperModel :=
  {| transcribe := fun _ _ beam_size vad_filter min_silence_duration_ms disk =>
       (if (beam_size =? 5) && vad_filter && (min_silence_duration_ms =? 100)
        then inr [Segment.mk "Hello"; Segment.mk " world "]
        else inl "unsupported parameters", disk) |}.


(** [open] fails. *)
Definition env_open_fails : Env :=
  {| uuid4 := 255; write_outcome := OpenFails "disk full";
     remove_outcome := RemoveOk;
     time_start := 10; time_end := 11 |}.

(** Another UUID is drawn. *)
Definition env_other_uuid : Env :=
  {| uuid4 := 256; write_outcome := WriteOk; remove_outcome := RemoveOk;
     time_start := 10; time_end := 11 |}.

(** A disk that holds one unrelated file. *)
Definition world_with_notes (m : option WhisperModel) : World :=
  {| MODEL_SIZE := "small"; whisper_model := m;
     fs := {[ "/tmp/notes.txt" := ["104"%byte; "105"%byte] ]} |}.

Definition environ_large : gmap string string :=
  {[ "WHISPER_MODEL" := "large-v3" ]}.

(** ** Properties of the built-ins *)

Section Round.
Local Open Scope Q_scope.

Lemma round_cases (x : Q) :
  let d := Z.pos (Qden x) in
  (2 * (round x * d - Qnum x) <= d /\ - d <= 2 * (round x * d - Qnum x))%Z.
Proof.
  destruct x as [n d]; unfold round; simpl.
  pose proof (Z.div_mod n (Z.pos d) ltac:(lia)) as Hdm.
  pose proof (Z.mod_pos_bound n (Z.pos d) ltac:(lia)) as Hb.
  destruct (Z.compare_spec (2 * (n mod Z.pos d)) (Z.pos d)) as [He|Hl|Hg];
    [destruct (Z.even (n / Z.pos d))|..]; nia.
Qed.

(** [round] is within one half of its argument. *)
Lemma round_half (x : Q) : Qabs (inject_Z (round x) - x) <= 1 # 2.
Proof.
  apply Qabs_Qle_condition.
  pose proof (round_cases x) as [H1 H2].
  destruct x as [n d]; simpl in H1, H2.
  unfold Qle, Qminus, Qplus, Qopp, inject_Z; simpl.
  split; nia.
Qed.

(** No integer is nearer to the argument than [round] is. *)
Lemma round_nearest (x : Q) (z : Z) :
  Qabs (inject_Z (round x) - x) <= Qabs (inject_Z z - x).
Proof.
  pose proof (round_cases x) as [H1 H2].
  destruct x as [n d]; simpl in H1, H2.
  set (r := round (n # d)) in *.
  assert (Hz : (z = r \/ r + 1 <= z \/ z <= r - 1)%Z) by lia.
  apply Qabs_case; intros Ha; apply Qabs_case; intros Hb;
    unfold Qle, Qminus, Qplus, Qopp, inject_Z in *; simpl in *;
    rewrite ?Z.mul_1_r in *;
    apply Z.mul_le_mono_nonneg_r; try lia;
    destruct Hz as [->|[Hz|Hz]]; nia.
Qed.

Lemma round_nonneg (x : Q) : 0 <= x -> (0 <= round x)%Z.
Proof.
  destruct x as [n d]; unfold Qle, round; simpl; intros Hn.
  assert (0 <= n / Z.pos d)%Z by (apply Z.div_pos; lia).
  destruct (2 * (n mod Z.pos d) ?= Z.pos d)%Z;
    [destruct (Z.even (n / Z.pos d))|..]; lia.
Qed.

Example round_ties_to_even :
  round (5 # 2) = 2%Z /\ round (7 # 2) = 4%Z /\ round (-5 # 2) = (-2)%Z /\
  round (1499 # 1000) = 1%Z.
Proof. repeat split. Qed.

End Round.

Section Strings.

Example strip_hello : strip (join " " ["Hello"; " world "]) = "Hello  world".
Proof. reflexivity. Qed.

Example strip_blank : strip (String "009" (String "010" " ")) = EmptyString.
Proof. reflexivity. Qed.

Example split_dots : split "." "a.b..wav" = ["a"; "b"; ""; "wav"].
Proof. reflexivity. Qed.

Example split_no_dot : split "." "audio" = ["audio"].
Proof. reflexivity. Qed.

Example hex_255 : hex 255 = "000000000000000000000000000000ff".
Proof. reflexivity. Qed.

Lemma app_cons (c : ascii) (s t : string) : String c s +:+ t = String c (s +:+ t).
Proof. reflexivity. Qed.

Lemma app_empty_l (t : string) : EmptyString +:+ t = t.
Proof. reflexivity. Qed.


Lemma lstrip_spec (s : string) :
  exists l, s = l +:+ lstrip s /\ all_space l = true /\ head_space (lstrip s) = false.
Proof.
  induction s as [|c s IH]; simpl.
  - exists EmptyString; auto.
  - destruct (isspace c) eqn:Hc.
    + destruct IH as (l & Hs & Hl & Hh).
      exists (String c l). rewrite app_cons, <- Hs. simpl. rewrite Hc. auto.
    + exists EmptyString. simpl. auto.
Qed.

Lemma rstrip_spec (s : string) :
  exists r, s = rstrip s +:+ r /\ all_space r = true /\ last_space (rstrip s) = false.
Proof.
  induction s as [|c s IH]; simpl.
  - exists EmptyString; auto.
  - destruct IH as (r & Hs & Hr & Hl).
    destruct (rstrip s) as [|c' s'] eqn:Hrs.
    + rewrite app_empty_l in Hs. subst r.
      destruct (isspace c) eqn:Hc.
      * exists (String c s). simpl. rewrite Hc. auto.
      * exists s. simpl. auto.
    + exists r. rewrite app_cons, <- Hs. auto.
Qed.

Lemma rstrip_head (s : string) : head_space s = false -> head_space (rstrip s) = false.
Proof.
  destruct s as [|c s]; simpl; [auto|].
  intros Hc. destruct (rstrip s); [rewrite Hc|]; simpl; auto.
Qed.

(** [strip] trims. *)
Lemma strip_trimmed (s : string) : trimmed s (strip s).
Proof.
  unfold strip.
  destruct (lstrip_spec s) as (l & Hs & Hl & Hh).
  destruct (rstrip_spec (lstrip s)) as (r & Hs' & Hr & Hlast).
  exists l, r. rewrite <- Hs'. repeat split; auto using rstrip_head.
Qed.

Lemma lstrip_all_space (s : string) : all_space s = true -> lstrip s = EmptyString.
Proof.
  induction s as [|c s IH]; simpl; [auto|].
  intros [Hc Hs]%andb_prop. rewrite Hc. auto.
Qed.

Lemma lstrip_app_space (l u : string) :
  all_space l = true -> lstrip (l +:+ u) = lstrip u.
Proof.
  induction l as [|c l IH]; simpl; [auto|].
  intros [Hc Hl]%andb_prop. rewrite Hc. auto.
Qed.

Lemma lstrip_id (u : string) : head_space u = false -> lstrip u = u.
Proof. destruct u; simpl; [auto|]. now intros ->. Qed.

Lemma rstrip_all_space (s : string) : all_space s = true -> rstrip s = EmptyString.
Proof.
  induction s as [|c s IH]; simpl; [auto|].
  intros [Hc Hs]%andb_prop. rewrite IH, Hc; auto.
Qed.

Lemma rstrip_app_space (t r : string) :
  all_space r = true -> rstrip (t +:+ r) = rstrip t.
Proof.
  intros Hr. induction t as [|c t IH].
  - rewrite app_empty_l. now apply rstrip_all_space.
  - rewrite app_cons. simpl. now rewrite IH.
Qed.

Lemma rstrip_id (t : string) : last_space t = false -> rstrip t = t.
Proof.
  induction t as [|c t IH]; simpl; [auto|].
  destruct t as [|c' t'].
  - simpl. now intros ->.
  - intros Hl. now rewrite (IH Hl).
Qed.

(** Trimming has one result only: the one [strip] computes. *)
Lemma trimmed_strip (s t : string) : trimmed s t -> strip s = t.
Proof.
  intros (l & r & -> & Hl & Hr & Hh & Hlast). unfold strip.
  rewrite (lstrip_app_space _ _ Hl).
  destruct t as [|c t].
  - rewrite app_empty_l, (lstrip_all_space _ Hr). reflexivity.
  - rewrite lstrip_id by (rewrite app_cons; exact Hh).
    rewrite (rstrip_app_space _ _ Hr). now apply rstrip_id.
Qed.

Lemma split_cons (sep : ascii) (s : string) :
  exists piece pieces, split sep s = piece :: pieces.
Proof.
  destruct s as [|c s]; simpl; [eauto|].
  destruct (Ascii.eqb c sep); [eauto|].
  destruct (split sep s); eauto.
Qed.

Lemma split_absent (sep : ascii) (s : string) :
  contains sep s = false -> split sep s = [s].
Proof.
  induction s as [|c s IH]; simpl; [auto|].
  intros [Hc Hs]%orb_false_elim. rewrite Hc, (IH Hs). reflexivity.
Qed.

Lemma split_app (sep : ascii) (pre suf : string) :
  exists f front, split sep (pre +:+ String sep suf) = (f :: front) ++ split sep suf.
Proof.
  induction pre as [|c pre (f & front & IH)].
  - exists EmptyString, []. rewrite app_empty_l. simpl. now rewrite Ascii.eqb_refl.
  - rewrite app_cons. simpl. rewrite IH.
    destruct (Ascii.eqb c sep).
    + now exists EmptyString, (f :: front).
    + now exists (String c f), front.
Qed.

Lemma last_split_app (sep : ascii) (pre suf : string) :
  last (split sep (pre +:+ String sep suf)) = last (split sep suf).
Proof.
  destruct (split_app sep pre suf) as (f & front & ->).
  destruct (split_cons sep suf) as (p & ps & ->).
  rewrite last_app. destruct (last (p :: ps)) eqn:E; [reflexivity|].
  now apply last_None in E.
Qed.

Lemma hex_digit_is_hex (d : N) : is_hex (hex_digit d) = true.
Proof.
  unfold hex_digit. generalize (N.to_nat d) as i. intros i.
  do 16 (destruct i as [|i]; [reflexivity|]). reflexivity.
Qed.

Lemma hex_digits_length (k : nat) (n : N) (acc : string) :
  String.length (hex_digits k n acc) = (k + String.length acc)%nat.
Proof.
  revert n acc. induction k as [|k IH]; intros n acc; simpl; [auto|].
  rewrite IH. simpl. lia.
Qed.

Lemma hex_digits_all_hex (k : nat) (n : N) (acc : string) :
  all_hex acc = true -> all_hex (hex_digits k n acc) = true.
Proof.
  revert n acc. induction k as [|k IH]; intros n acc Hacc; simpl; [auto|].
  apply IH. simpl. now rewrite hex_digit_is_hex.
Qed.

End Strings.

(** ** Further properties of the built-ins *)

Section MoreStrings.

(** A string in which [sep] occurs splits at the last occurrence. *)
Lemma contains_last (sep : ascii) (s : string) :
  contains sep s = true ->
  exists pre suf, s = pre +:+ String sep suf /\ contains sep suf = false.
Proof.
  induction s as [|c s IH]; simpl; [discriminate|].
  destruct (contains sep s) eqn:Hs.
  - intros _. destruct (IH eq_refl) as (pre & suf & -> & Hsuf).
    exists (String c pre), suf. now rewrite app_cons.
  - rewrite orb_false_r. intros Hc%Ascii.eqb_eq. subst c.
    exists EmptyString, s. now rewrite app_empty_l.
Qed.

(** The last piece of a split has no separator and ends the string. *)
Lemma last_split_spec (sep : ascii) (s : string) :
  exists ext,
    last (split sep s) = Some ext /\ contains sep ext = false /\
    (s = ext \/ exists pre, s = pre +:+ String sep ext).
Proof.
  destruct (contains sep s) eqn:Hs.
  - destruct (contains_last sep s Hs) as (pre & suf & -> & Hsuf).
    exists suf. rewrite last_split_app, (split_absent _ _ Hsuf). eauto.
  - exists s. rewrite (split_absent _ _ Hs). auto.
Qed.

Lemma app_inj_length (s1 s2 t1 t2 : string) :
  String.length s1 = String.length s2 -> s1 +:+ t1 = s2 +:+ t2 -> s1 = s2.
Proof.
  revert s2. induction s1 as [|c s1 IH]; intros [|c' s2]; simpl; try discriminate.
  - reflexivity.
  - intros Hlen. rewrite !app_cons. intros Heq. injection Heq as -> Heq.
    f_equal. apply IH; [lia | exact Heq].
Qed.

Lemma hex_value_digit (d : N) : (d < 16)%N -> hex_value (hex_digit d) = d.
Proof.
  intros Hd. destruct d as [|p]; [reflexivity|].
  do 4 (destruct p as [p|p|]; try reflexivity; try (exfalso; lia)).
Qed.

Lemma unhex_hex_digits (k : nat) (n a : N) (acc : string) :
  unhex_from a (hex_digits k n acc)
  = unhex_from (a * 16 ^ N.of_nat k + n mod 16 ^ N.of_nat k)%N acc.
Proof.
  revert n acc. induction k as [|k IH]; intros n acc.
  - simpl. rewrite N.mod_1_r. f_equal. lia.
  - cbn [hex_digits]. rewrite IH. cbn [unhex_from].
    rewrite hex_value_digit by (apply N.mod_upper_bound; lia).
    f_equal. rewrite Nat2N.inj_succ, N.pow_succ_r'.
    rewrite (N.Div0.mod_mul_r n 16 (16 ^ N.of_nat k)). lia.
Qed.

(** The digits read back as the 128 low bits of the integer. *)
Lemma unhex_hex_mod (n : N) : unhex (hex n) = (n mod 2 ^ 128)%N.
Proof.
  unfold unhex, hex. rewrite unhex_hex_digits. simpl unhex_from.
  change (16 ^ N.of_nat 32)%N with (2 ^ 128)%N. lia.
Qed.

(** The digits of a 128-bit integer read back as that integer. *)
Lemma unhex_hex (n : N) : (n < 2 ^ 128)%N -> unhex (hex n) = n.
Proof. intros Hn. rewrite unhex_hex_mod. now apply N.mod_small. Qed.




(** [strip] is idempotent. *)
Lemma strip_strip (s : string) : strip (strip s) = strip s.
Proof.
  destruct (strip_trimmed s) as (l & r & _ & _ & _ & Hh & Hl).
  apply trimmed_strip. exists EmptyString, EmptyString.
  rewrite app_empty_l. repeat split; auto.
  clear. induction (strip s) as [|c t IH]; [reflexivity|].
  rewrite app_cons. now f_equal.
Qed.

End MoreStrings.

(** ** The paths through [transcribe_audio] *)

Section Handler.
Context {F : FloatOps}.
Variables (env : Env) (file : UploadFile) (model response_format : string).
Variables (language timestamp_granularities : option string).

Let run : M exn TranscriptionResponse.t :=
  transcribe_audio env file model response_format language timestamp_granularities.

Lemma set_fs_same (w : World) : set_fs w (fs w) = w.
Proof. now destruct w. Qed.

(** The [finally] block: when it does not raise, [path] is absent and
    nothing else has changed; when [os.remove] is refused, its exception
    comes out and the disk is as it was. *)
Lemma cleanup_outcome (path : string) (w : World) :
  (present <- os_path_exists path ;;
   if present then os_remove (remove_outcome env) path else ret tt) w
  = match cleanup_error env (fs w) path with
    | Some msg => (inl (Exception msg), w)
    | None => (inr tt, set_fs w (delete path (fs w)))
    end.
Proof.
  unfold bind, os_path_exists, os_remove, ret, cleanup_error.
  destruct (fs w !! path) as [old|] eqn:Hp.
  - rewrite bool_decide_eq_true_2 by eauto. rewrite Hp.
    now destruct (remove_outcome env).
  - rewrite bool_decide_eq_false_2 by (intros [? ?]; discriminate).
    now rewrite delete_id, set_fs_same.
Qed.


Lemma cleanup_error_ok (disk : FS) (path : string) :
  remove_outcome env = RemoveOk -> cleanup_error env disk path = None.
Proof. unfold cleanup_error. intros ->. now destruct (disk !! path). Qed.

Lemma temp_filename_defined :
  exists ext, last (split "." (filename file)) = Some ext /\
    temp_filename env file
    = inr ("/tmp/whisper_" +:+ hex (uuid4 env) +:+ "." +:+ ext).
Proof.
  unfold temp_filename, getitem_last.
  destruct (last (split "." (filename file))) as [ext|] eqn:E; [eauto|].
  apply last_None in E. destruct (split_cons "." (filename file)) as (p & ps & Hp).
  congruence.
Qed.

Lemma transcribe_audio_unloaded (w : World) :
  whisper_model w = None ->
  run w = (inl (HTTPException 503
             "Whisper model not loaded. Please wait for server to initialize."), w).
Proof.
  intros Hm. unfold run, transcribe_audio, bind, get_whisper_model.
  now rewrite Hm.
Qed.

Lemma transcribe_audio_too_large (w : World) (whisper : WhisperModel) :
  whisper_model w = Some whisper ->
  100 * MiB < len (read file) ->
  run w = (inl (HTTPException 400 "File too large (max 100MB)"), w).
Proof.
  intros Hm Hlen. unfold run, transcribe_audio, bind, get_whisper_model.
  rewrite Hm.
  destruct (Z.gtb_spec (len (read file)) (100 * 1024 * 1024)) as [_|Hle];
    [reflexivity | unfold MiB in Hlen; lia].
Qed.

Lemma transcribe_audio_too_small (w : World) (whisper : WhisperModel) :
  whisper_model w = Some whisper ->
  len (read file) < KiB ->
  run w = (inl (HTTPException 400 "File too small (may be empty)"), w).
Proof.
  intros Hm Hlen. unfold run, transcribe_audio, bind, get_whisper_model.
  rewrite Hm. unfold KiB in Hlen.
  destruct (Z.gtb_spec (len (read file)) (100 * 1024 * 1024)) as [Hgt|_]; [lia|].
  destruct (Z.ltb_spec (len (read file)) 1024) as [_|Hge]; [reflexivity | lia].
Qed.

(** Past the size check: the [try] block, its [except] clause and the
    [finally] block, for each outcome of writing the upload and of
    removing it. *)
Lemma transcribe_audio_pipeline (w : World) (whisper : WhisperModel) (path : string) :
  whisper_model w = Some whisper ->
  KiB <= len (read file) <= 100 * MiB ->
  temp_filename env file = inr path ->
  run w =
    let disk := disk_at_cleanup env whisper path language (read file) (fs w) in
    match cleanup_error env disk path with
    | Some msg => (inl (Exception msg), set_fs w disk)
    | None =>
        (match write_outcome env with
         | WriteOk =>
             match fst (transcribe whisper path language 5 true 100
                          (<[path := read file]> (fs w))) with
             | inl e => inl (HTTPException 500 ("Transcription failed: " +:+ e))
             | inr segments =>
                 inr (TranscriptionResponse.mk
                        (strip (join " " (map Segment.text segments))) model
                        (inject_Z (round (float_mul
                           (float_sub (time_end env) (time_start env)) 1000))))
             end
         | OpenFails msg | WriteFails _ msg =>
             inl (HTTPException 500 ("Transcription failed: " +:+ msg))
         end, set_fs w (delete path disk))
    end.
Proof.
  intros Hm [Hlo Hhi] Hpath. unfold KiB in Hlo. unfold MiB in Hhi.
  unfold run, transcribe_audio. unfold bind at 1. unfold get_whisper_model.
  rewrite Hm.
  destruct (Z.gtb_spec (len (read file)) (100 * 1024 * 1024)) as [Hgt|_]; [lia|].
  destruct (Z.ltb_spec (len (read file)) 1024) as [Hlt|_]; [lia|].
  unfold bind at 1. unfold lift. rewrite Hpath.
  unfold try_finally, try_except, disk_at_cleanup. unfold bind at 1.
  destruct (write_outcome env) as [|msg|k msg]; simpl.
  - unfold bind at 1, call_transcribe. simpl.
    destruct (transcribe whisper path language 5 true 100 _) as [[e|segments] fs1];
      unfold raise, ret; rewrite cleanup_outcome; simpl;
      now destruct (cleanup_error env fs1 path).
  - unfold raise. rewrite cleanup_outcome.
    destruct (cleanup_error env (fs w) path); [|reflexivity].
    now rewrite set_fs_same.
  - unfold raise. rewrite cleanup_outcome. simpl.
    now destruct (cleanup_error env _ path).
Qed.

End Handler.

(** ** The responses of [POST /v1/audio/transcriptions] *)

Section Responses.
Context {F : FloatOps}.
Variables (env : Env) (file : UploadFile) (model response_format : string).
Variables (language timestamp_granularities : option string).

Let post : World -> Response * World :=
  POST_transcriptions env file model response_format language timestamp_granularities.

Lemma POST_unloaded (w : World) :
  whisper_model w = None -> post w = (EngineNotReady, w).
Proof.
  intros Hm. unfold post, POST_transcriptions.
  now rewrite transcribe_audio_unloaded.
Qed.

Lemma POST_too_large (w : World) (whisper : WhisperModel) :
  whisper_model w = Some whisper -> 100 * MiB < len (read file) ->
  post w = (PayloadTooLarge, w).
Proof.
  intros Hm Hlen. unfold post, POST_transcriptions.
  now rewrite (transcribe_audio_too_large _ _ _ _ _ _ _ _ Hm Hlen).
Qed.

Lemma POST_too_small (w : World) (whisper : WhisperModel) :
  whisper_model w = Some whisper -> len (read file) < KiB ->
  post w = (PayloadTooSmall, w).
Proof.
  intros Hm Hlen. unfold post, POST_transcriptions.
  now rewrite (transcribe_audio_too_small _ _ _ _ _ _ _ _ Hm Hlen).
Qed.

Lemma POST_pipeline (w : World) (whisper : WhisperModel) (path : string) :
  whisper_model w = Some whisper ->
  KiB <= len (read file) <= 100 * MiB ->
  temp_filename env file = inr path ->
  post w =
    let disk := disk_at_cleanup env whisper path language (read file) (fs w) in
    match cleanup_error env disk path with
    | Some msg => (global_exception_handler msg, set_fs w disk)
    | None =>
        (match write_outcome env with
         | WriteOk =>
             match fst (transcribe whisper path language 5 true 100
                          (<[path := read file]> (fs w))) with
             | inl e => TranscriptionFailed e
             | inr segments =>
                 Transcribed (strip (join " " (map Segment.text segments))) model
                   (inject_Z (round (elapsed_ms env)))
             end
         | OpenFails msg | WriteFails _ msg => TranscriptionFailed msg
         end, set_fs w (delete path disk))
    end.
Proof.
  intros Hm Hlen Hpath. unfold post, POST_transcriptions.
  rewrite (transcribe_audio_pipeline _ _ _ _ _ _ _ _ _ Hm Hlen Hpath). cbv zeta.
  destruct (cleanup_error env _ path); [reflexivity|].
  destruct (write_outcome env); try reflexivity.
  now destruct (fst (transcribe whisper path language 5 true 100 _)).
Qed.

(** Past the size check the answer is 200 or 500. *)
Lemma POST_pipeline_status (w : World) (whisper : WhisperModel) :
  whisper_model w = Some whisper ->
  KiB <= len (read file) <= 100 * MiB ->
  status_code (fst (post w)) = 200 \/ status_code (fst (post w)) = 500.
Proof.
  intros Hm Hlen. destruct (temp_filename_defined env file) as (ext & _ & Hpath).
  rewrite (POST_pipeline _ _ _ Hm Hlen Hpath). cbv zeta.
  destruct (cleanup_error env _ _); [simpl; auto|].
  destruct (write_outcome env); simpl; auto.
  destruct (fst (transcribe whisper _ language 5 true 100 _)); simpl; auto.
Qed.

End Responses.

(** ** The properties of the specification *)

Section Claims.
Context {F : FloatOps}.
Variables (env : Env) (file : UploadFile) (model response_format : string).
Variables (language timestamp_granularities : option string).

Let post : World -> Response * World :=
  POST_transcriptions env file model response_format language timestamp_granularities.

(** The ways a request ends. *)
Lemma POST_cases (w : World) :
  (whisper_model w = None /\ post w = (EngineNotReady, w)) \/
  (100 * MiB < len (read file) /\ post w = (PayloadTooLarge, w)) \/
  (len (read file) < KiB /\ post w = (PayloadTooSmall, w)) \/
  (exists whisper, whisper_model w = Some whisper /\
     KiB <= len (read file) <= 100 * MiB).
Proof.
  destruct (whisper_model w) as [whisper|] eqn:Hm.
  - destruct (Z_lt_le_dec (100 * MiB) (len (read file))) as [Hgt|Hle].
    + right; left. eauto using POST_too_large.
    + destruct (Z_lt_le_dec (len (read file)) KiB) as [Hlt|Hge].
      * right; right; left. eauto using POST_too_small.
      * right; right; right. eauto.
  - left. eauto using POST_unloaded.
Qed.

(** C1 (as amended): with the engine loaded, the size check passes exactly
    when 1 KiB <= size <= 100 MiB, both bounds included; a size above
    100 MiB is answered with PayloadTooLarge (400) and a size below 1 KiB
    with PayloadTooSmall (400). *)
Theorem size_check_bounds_inclusive (w : World) (whisper : WhisperModel) :
  whisper_model w = Some whisper ->
  (KiB <= len (read file) <= 100 * MiB <-> status_code (fst (post w)) <> 400) /\
  (100 * MiB < len (read file) -> fst (post w) = PayloadTooLarge) /\
  (len (read file) < KiB -> fst (post w) = PayloadTooSmall).
Proof.
  intros Hm. split; [split|split].
  - intros Hlen. destruct (POST_pipeline_status env file model response_format
      language timestamp_granularities w whisper Hm Hlen) as [H|H];
      fold post in H; rewrite H; lia.
  - intros Hst.
    destruct (Z_lt_le_dec (100 * MiB) (len (read file))) as [Hgt|Hle].
    + exfalso. apply Hst. unfold post.
      now rewrite (POST_too_large _ _ _ _ _ _ _ _ Hm Hgt).
    + destruct (Z_lt_le_dec (len (read file)) KiB) as [Hlt|Hge]; [|lia].
      exfalso. apply Hst. unfold post.
      now rewrite (POST_too_small _ _ _ _ _ _ _ _ Hm Hlt).
  - intros Hgt. unfold post. now rewrite (POST_too_large _ _ _ _ _ _ _ _ Hm Hgt).
  - intros Hlt. unfold post. now rewrite (POST_too_small _ _ _ _ _ _ _ _ Hm Hlt).
Qed.



(** C4 (as amended): a 200 answer has the body [{text, model, duration}];
    [model] is the form field of the request; [duration] is the integer
    nearest to the elapsed milliseconds the handler computed from its two
    clock readings, and it is not negative when the second reading is not
    earlier than the first. *)
Theorem success_body (w : World) :
  status_code (fst (post w)) = 200 ->
  exists text,
    content (fst (post w))
    = [ ("text", JStr text); ("model", JStr model);
        ("duration", JNum (inject_Z (round (elapsed_ms env)))) ] /\
    (Qabs (inject_Z (round (elapsed_ms env)) - elapsed_ms env) <= 1 # 2)%Q /\
    (forall z : Z,
       (Qabs (inject_Z (round (elapsed_ms env)) - elapsed_ms env)
        <= Qabs (inject_Z z - elapsed_ms env))%Q) /\
    (FloatSign F -> (time_start env <= time_end env)%Q ->
     0 <= round (elapsed_ms env)).
Proof.
  intros Hst.
  assert (Hbody : exists text, content (fst (post w))
    = [ ("text", JStr text); ("model", JStr model);
        ("duration", JNum (inject_Z (round (elapsed_ms env)))) ]).
  { destruct (POST_cases w) as [[_ H]|[[_ H]|[[_ H]|(whisper & Hm & Hlen)]]];
      try (rewrite H in Hst; discriminate Hst).
    destruct (temp_filename_defined env file) as (ext & _ & Hpath).
    unfold post in *. rewrite (POST_pipeline _ _ _ _ _ _ _ _ _ Hm Hlen Hpath) in *.
    cbv zeta in *.
    destruct (cleanup_error env _ _); [discriminate Hst|].
    destruct (write_outcome env); try discriminate Hst.
    destruct (fst (transcribe whisper _ language 5 true 100 _)) as [e|segments];
      [discriminate Hst|]. simpl. eauto. }
  destruct Hbody as (text & Hbody). exists text.
  split; [exact Hbody|]. split; [apply round_half|]. split; [apply round_nearest|].
  intros HF Hclock. apply round_nonneg. unfold elapsed_ms.
  apply float_mul_nonneg; [now apply float_sub_nonneg | discriminate].
Qed.


(** C6: while no engine is loaded every request is answered with 503,
    whatever its payload, and nothing else happens. *)
Theorem unloaded_engine_is_503 (w : World) :
  whisper_model w = None ->
  status_code (fst (post w)) = 503 /\ post w = (EngineNotReady, w).
Proof.
  intros Hm. unfold post. now rewrite POST_unloaded.
Qed.

(** C7: a request rejected by the size check creates no temporary file:
    the disk, and the whole state, are as before. *)
Theorem rejected_upload_changes_nothing (w : World) :
  fst (post w) = PayloadTooLarge \/ fst (post w) = PayloadTooSmall ->
  snd (post w) = w.
Proof.
  intros Hrej.
  assert (Hst : status_code (fst (post w)) = 400)
    by (destruct Hrej as [-> | ->]; reflexivity).
  destruct (POST_cases w) as [[_ H]|[[_ H]|[[_ H]|(whisper & Hm & Hlen)]]];
    try (now rewrite H).
  destruct (POST_pipeline_status env file model response_format
    language timestamp_granularities w whisper Hm Hlen) as [H|H];
    fold post in H; rewrite H in Hst; discriminate.
Qed.

(** C8: the text of the answer, its status and the state left behind do
    not depend on the form fields [model], [response_format] and
    [timestamp_granularities]; [model] only comes back in the field
    [model] of a 200 answer. *)
Theorem advisory_fields_do_not_reach_the_text
    (model' response_format' : string) (timestamp_granularities' : option string)
    (w : World) :
  let r := post w in
  let r' := POST_transcriptions env file model' response_format' language
              timestamp_granularities' w in
  field "text" (content (fst r)) = field "text" (content (fst r')) /\
  status_code (fst r) = status_code (fst r') /\
  snd r = snd r' /\
  (status_code (fst r) = 200 -> field "model" (content (fst r)) = Some (JStr model)).
Proof.
  cbv zeta.
  destruct (whisper_model w) as [whisper|] eqn:Hm;
    [|unfold post; rewrite !POST_unloaded by exact Hm; repeat split; discriminate].
  destruct (Z_lt_le_dec (100 * MiB) (len (read file))) as [Hgt|Hle];
    [unfold post; rewrite !(POST_too_large _ _ _ _ _ _ _ _ Hm Hgt);
     repeat split; discriminate|].
  destruct (Z_lt_le_dec (len (read file)) KiB) as [Hlt|Hge];
    [unfold post; rewrite !(POST_too_small _ _ _ _ _ _ _ _ Hm Hlt);
     repeat split; discriminate|].
  destruct (temp_filename_defined env file) as (ext & _ & Hpath).
  unfold post.
  rewrite !(POST_pipeline _ _ _ _ _ _ _ _ _ Hm (conj Hge Hle) Hpath).
  cbv zeta.
  destruct (cleanup_error env _ _); [repeat split; discriminate|].
  destruct (write_outcome env); simpl; try (repeat split; discriminate).
  destruct (fst (transcribe whisper _ language 5 true 100 _)) as [e|segments];
    simpl; repeat split; discriminate.
Qed.

(** C9: the temporary path is [/tmp/whisper_], 32 hexadecimal digits, a
    dot and the extension. The digits are those of the UUID drawn: read
    in base 16 they give back its 128 bits. The extension is what
    follows the last dot of the declared file name, or the whole name
    when it has no dot. A request that gets past the size check writes
    the upload there, hands that path to the engine and removes it
    (unless [os.remove] raises). *)
Theorem temp_path_shape :
  exists ext,
    temp_filename env file
    = inr ("/tmp/whisper_" +:+ hex (uuid4 env) +:+ "." +:+ ext) /\
    String.length (hex (uuid4 env)) = 32%nat /\
    all_hex (hex (uuid4 env)) = true /\
    unhex (hex (uuid4 env)) = (uuid4 env mod 2 ^ 128)%N /\
    (contains "." (filename file) = false -> ext = filename file) /\
    (forall pre suf, filename file = pre +:+ "." +:+ suf ->
       contains "." suf = false -> ext = suf) /\
    (forall w whisper,
       whisper_model w = Some whisper ->
       KiB <= len (read file) <= 100 * MiB ->
       write_outcome env = WriteOk ->
       let path := "/tmp/whisper_" +:+ hex (uuid4 env) +:+ "." +:+ ext in
       let disk :=
         snd (transcribe whisper path language 5 true 100
                (<[path := read file]> (fs w))) in
       fs (snd (post w))
       = match cleanup_error env disk path with
         | None => delete path disk
         | Some _ => disk
         end).
Proof.
  destruct (temp_filename_defined env file) as (ext & Hlast & Hpath).
  exists ext. split; [exact Hpath|]. split; [apply hex_digits_length|].
  split; [now apply hex_digits_all_hex|]. split; [apply unhex_hex_mod|].
  split; [|split].
  - intros Hdot. rewrite (split_absent _ _ Hdot) in Hlast. simpl in Hlast. congruence.
  - intros pre suf Hname Hdot.
    rewrite Hname in Hlast. change ("." +:+ suf) with (String "." suf) in Hlast.
    rewrite last_split_app, (split_absent _ _ Hdot) in Hlast.
    simpl in Hlast. congruence.
  - intros w whisper Hm Hlen Hw. cbv zeta. unfold post.
    rewrite (POST_pipeline _ _ _ _ _ _ _ _ _ Hm Hlen Hpath).
    unfold disk_at_cleanup. rewrite Hw. cbv zeta.
    now destruct (cleanup_error env _ _).
Qed.

(** C10: [GET /health] reports [ready: true] exactly in the states where
    a transcription request is not answered with 503. *)
Theorem readiness_agrees (w : World) :
  field "ready" (content (GET_health w)) = Some (JBool true) <->
  status_code (fst (post w)) <> 503.
Proof.
  unfold GET_health, health_check. simpl.
  destruct (POST_cases w) as [[Hm H]|[[_ H]|[[_ H]|(whisper & Hm & Hlen)]]].
  - rewrite H, Hm. simpl. split; [discriminate | intros Hne; now elim Hne].
  - rewrite H. simpl.
    destruct (whisper_model w) eqn:Hm; [split; [discriminate|reflexivity]|].
    unfold post in H. rewrite (POST_unloaded _ _ _ _ _ _ _ Hm) in H. discriminate H.
  - rewrite H. simpl.
    destruct (whisper_model w) eqn:Hm; [split; [discriminate|reflexivity]|].
    unfold post in H. rewrite (POST_unloaded _ _ _ _ _ _ _ Hm) in H. discriminate H.
  - rewrite Hm. split; [|reflexivity]. intros _.
    destruct (POST_pipeline_status env file model response_format
      language timestamp_granularities w whisper Hm Hlen) as [H|H];
      fold post in H; rewrite H; discriminate.
Qed.

End Claims.

(** ** The properties at sample requests *)

(** Exact arithmetic preserves signs. *)
Lemma exact_float_sign : FloatSign exact_float.
Proof.
  split; simpl.
  - intros a b Hab. now apply (proj1 (Qle_minus_iff b a)).
  - intros a b. apply Qmult_le_0_compat.
Qed.

Ltac evaluate := vm_compute; reflexivity.
Ltac in_range := vm_compute; split; intros Hcmp; discriminate Hcmp.

(** C1, the claim as stated fails: an upload of exactly 1 KiB, a size on
    the lower boundary, is not rejected with PayloadTooSmall; it is
    transcribed and answered with 200. *)
Lemma upload_of_1KiB_is_accepted :
  len (read (upload 1024)) = KiB /\
  fst (POST_transcriptions (F := exact_float) env_ok (upload 1024)
         "whisper-1" "json" None None (world_with (Some engine_hello)))
  = Transcribed "Hello  world" "whisper-1" (inject_Z 1500) /\
  fst (POST_transcriptions (F := exact_float) env_ok (upload 1024)
         "whisper-1" "json" None None (world_with (Some engine_hello)))
  <> PayloadTooSmall.
Proof.
  split; [evaluate|]. split; [evaluate|].
  vm_compute. intros Heq. discriminate Heq.
Qed.

(** The size check at an upload of 1000 bytes. *)
Lemma size_check_bounds_inclusive_witness :
  whisper_model (world_with (Some engine_hello)) = Some engine_hello /\
  ((KiB <= len (read (upload 1000)) <= 100 * MiB <->
    status_code (fst (POST_transcriptions (F := exact_float) env_ok (upload 1000)
      "whisper-1" "json" None None (world_with (Some engine_hello)))) <> 400) /\
   (100 * MiB < len (read (upload 1000)) ->
    fst (POST_transcriptions (F := exact_float) env_ok (upload 1000)
      "whisper-1" "json" None None (world_with (Some engine_hello)))
    = PayloadTooLarge) /\
   (len (read (upload 1000)) < KiB ->
    fst (POST_transcriptions (F := exact_float) env_ok (upload 1000)
      "whisper-1" "json" None None (world_with (Some engine_hello)))
    = PayloadTooSmall)).
Proof.
  split; [reflexivity|].
  apply (size_check_bounds_inclusive (F := exact_float) env_ok (upload 1000)
           "whisper-1" "json" None None (world_with (Some engine_hello)) engine_hello).
  reflexivity.
Defined.





(** C4, the claim as stated fails: when the clock is set back by a second
    between the two readings, a 200 answer carries the duration -1000. *)
Lemma clock_set_back_gives_negative_duration :
  fst (POST_transcriptions (F := exact_float) env_clock_set_back (upload 1024)
         "whisper-1" "json" None None (world_with (Some engine_hello)))
  = JSONResponse 200
      [ ("text", JStr "Hello  world"); ("model", JStr "whisper-1");
        ("duration", JNum (inject_Z (-1000))) ] /\
  (inject_Z (-1000) < 0)%Q.
Proof. split; evaluate. Qed.

(** A 200 answer when the clock advances. *)
Lemma success_body_witness :
  status_code (fst (POST_transcriptions (F := exact_float) env_ok (upload 1024)
    "whisper-1" "json" None None (world_with (Some engine_hello)))) = 200 /\
  exists text,
    content (fst (POST_transcriptions (F := exact_float) env_ok (upload 1024)
      "whisper-1" "json" None None (world_with (Some engine_hello))))
    = [ ("text", JStr text); ("model", JStr "whisper-1");
        ("duration", JNum (inject_Z (round (elapsed_ms (F := exact_float) env_ok)))) ] /\
    0 <= round (elapsed_ms (F := exact_float) env_ok).
Proof.
  split; [evaluate|].
  destruct (success_body (F := exact_float) env_ok (upload 1024)
              "whisper-1" "json" None None (world_with (Some engine_hello)))
    as (text & Hbody & _ & _ & Hsign); [evaluate|].
  exists text. split; [exact Hbody|].
  apply Hsign; [exact exact_float_sign|]. vm_compute. intros Hcmp. discriminate Hcmp.
Defined.



(** An empty upload while no engine is loaded. *)
Lemma unloaded_engine_is_503_witness :
  whisper_model (world_with None) = None /\
  status_code (fst (POST_transcriptions (F := exact_float) env_ok (upload 0)
    "whisper-1" "json" None None (world_with None))) = 503 /\
  POST_transcriptions (F := exact_float) env_ok (upload 0)
    "whisper-1" "json" None None (world_with None)
  = (EngineNotReady, world_with None).
Proof.
  split; [reflexivity|].
  apply (unloaded_engine_is_503 (F := exact_float) env_ok (upload 0)
           "whisper-1" "json" None None (world_with None)).
  reflexivity.
Defined.

(** An upload of ten bytes is rejected and leaves the state alone. *)
Lemma rejected_upload_changes_nothing_witness :
  (fst (POST_transcriptions (F := exact_float) env_ok (upload 10)
          "whisper-1" "json" None None (world_with (Some engine_hello)))
   = PayloadTooLarge \/
   fst (POST_transcriptions (F := exact_float) env_ok (upload 10)
          "whisper-1" "json" None None (world_with (Some engine_hello)))
   = PayloadTooSmall) /\
  snd (POST_transcriptions (F := exact_float) env_ok (upload 10)
         "whisper-1" "json" None None (world_with (Some engine_hello)))
  = world_with (Some engine_hello).
Proof.
  split; [right; evaluate|].
  apply (rejected_upload_changes_nothing (F := exact_float) env_ok (upload 10)
           "whisper-1" "json" None None (world_with (Some engine_hello))).
  right. evaluate.
Defined.

(** The temporary path of [clip.wav] ends in [.wav] and is removed. *)
Lemma temp_path_shape_witness :
  exists ext,
    temp_filename env_ok (upload 2048)
    = inr ("/tmp/whisper_" +:+ hex (uuid4 env_ok) +:+ "." +:+ ext) /\
    ext = "wav" /\
    fs (snd (POST_transcriptions (F := exact_float) env_ok (upload 2048)
               "whisper-1" "json" None None (world_with (Some engine_hello))))
      !! path_ok = None.
Proof.
  destruct (temp_path_shape (F := exact_float) env_ok (upload 2048)
              "whisper-1" "json" None None)
    as (ext & Hpath & _ & _ & _ & _ & Hext & Hrun).
  assert (Hwav : ext = "wav") by (apply (Hext "clip" "wav"); reflexivity).
  exists ext. split; [exact Hpath|]. split; [exact Hwav|].
  rewrite (Hrun (world_with (Some engine_hello)) engine_hello);
    [|reflexivity|in_range|reflexivity].
  subst ext. evaluate.
Defined.

(** ** Further properties of [transcribe_audio] *)

Section Requests.
Context {F : FloatOps}.
Variables (env : Env) (file : UploadFile) (model response_format : string).
Variables (language timestamp_granularities : option string).

Let post : World -> Response * World :=
  POST_transcriptions env file model response_format language timestamp_granularities.

(** The ways a request ends, with the answer and the state of each. *)
Lemma POST_outcomes (w : World) :
  post w = (EngineNotReady, w) \/
  post w = (PayloadTooLarge, w) \/
  post w = (PayloadTooSmall, w) \/
  exists whisper path,
    whisper_model w = Some whisper /\
    KiB <= len (read file) <= 100 * MiB /\
    temp_filename env file = inr path /\
    ((exists msg,
        cleanup_error env
          (disk_at_cleanup env whisper path language (read file) (fs w)) path
        = Some msg /\
        post w
        = (global_exception_handler msg,
           set_fs w (disk_at_cleanup env whisper path language (read file) (fs w)))) \/
     (cleanup_error env
        (disk_at_cleanup env whisper path language (read file) (fs w)) path = None /\
      snd (post w)
      = set_fs w
          (delete path (disk_at_cleanup env whisper path language (read file) (fs w))) /\
      ((exists msg,
          pipeline_raises env whisper path language (read file) (fs w) msg /\
          fst (post w) = TranscriptionFailed msg) \/
       (exists segments,
          write_outcome env = WriteOk /\
          fst (transcribe whisper path language 5 true 100
                 (<[path := read file]> (fs w))) = inr segments /\
          fst (post w)
          = Transcribed (strip (join " " (map Segment.text segments))) model
              (inject_Z (round (elapsed_ms env))))))).
Proof.
  destruct (whisper_model w) as [whisper|] eqn:Hm;
    [|left; now apply POST_unloaded].
  destruct (Z_lt_le_dec (100 * MiB) (len (read file))) as [Hgt|Hle];
    [right; left; now apply (POST_too_large _ _ _ _ _ _ _ whisper)|].
  destruct (Z_lt_le_dec (len (read file)) KiB) as [Hlt|Hge];
    [right; right; left; now apply (POST_too_small _ _ _ _ _ _ _ whisper)|].
  right; right; right.
  destruct (temp_filename_defined env file) as (ext & _ & Hpath).
  exists whisper. eexists. split; [reflexivity|]. split; [lia|]. split; [exact Hpath|].
  unfold post. rewrite (POST_pipeline _ _ _ _ _ _ _ _ _ Hm (conj Hge Hle) Hpath).
  cbv zeta. destruct (cleanup_error env _ _) as [msg|]; [left; eauto|].
  right. split; [reflexivity|]. split; [reflexivity|].
  unfold pipeline_raises.
  destruct (write_outcome env) as [|msg|k msg]; simpl; eauto.
  destruct (fst (transcribe whisper _ language 5 true 100 _)) as [e|segments];
    simpl; eauto 7.
Qed.

(** X1: a transcription request is answered with 200, 400, 500 or 503
    and with no other status. *)
Theorem status_is_one_of_four (w : World) :
  In (status_code (fst (post w))) [200; 400; 500; 503].
Proof.
  destruct (POST_outcomes w) as [H|[H|[H|(whisper & path & _ & _ & _ & H)]]];
    try (rewrite H; simpl; tauto).
  destruct H as [(msg & _ & ->)|(_ & _ & [(msg & _ & ->)|(segments & _ & _ & ->)])];
    simpl; tauto.
Qed.


(** X3: a request reads the global [whisper_model] and never assigns it;
    [MODEL_SIZE] is kept as well. *)
Theorem request_keeps_globals (w : World) :
  whisper_model (snd (post w)) = whisper_model w /\
  MODEL_SIZE (snd (post w)) = MODEL_SIZE w.
Proof.
  destruct (POST_outcomes w) as [H|[H|[H|(whisper & path & _ & _ & _ & H)]]];
    try (rewrite H; auto; fail).
  destruct H as [(msg & _ & ->)|(_ & -> & _)]; auto.
Qed.

(** The disk after a request served by an engine that keeps the disk. *)
Lemma POST_disk (w : World) (path : string) :
  temp_filename env file = inr path ->
  (forall whisper, whisper_model w = Some whisper -> engine_keeps_disk whisper) ->
  (forall p, p <> path -> fs (snd (post w)) !! p = fs w !! p) /\
  (remove_outcome env = RemoveOk ->
   fs (snd (post w)) = fs w \/ fs (snd (post w)) = delete path (fs w)).
Proof.
  intros Hpath Hkeep.
  destruct (POST_outcomes w) as [H|[H|[H|(whisper & path' & Hm & _ & Hp & H)]]];
    try (rewrite H; auto; fail).
  assert (path' = path) as -> by congruence.
  assert (HD : forall p, p <> path ->
            disk_at_cleanup env whisper path language (read file) (fs w) !! p
            = fs w !! p).
  { intros p Hne. unfold disk_at_cleanup.
    destruct (write_outcome env); [rewrite (Hkeep whisper Hm)|..];
      try reflexivity; now apply lookup_insert_ne. }
  assert (Hdel : delete path (disk_at_cleanup env whisper path language (read file) (fs w))
                 = delete path (fs w)).
  { unfold disk_at_cleanup.
    destruct (write_outcome env); [rewrite (Hkeep whisper Hm)|..];
      try reflexivity; apply delete_insert_eq. }
  destruct H as [(msg & Hc & ->)|(Hc & -> & _)]; simpl.
  - split; [exact HD|]. intros Hok.
    rewrite (cleanup_error_ok _ _ _ Hok) in Hc. discriminate Hc.
  - rewrite Hdel. split; [|auto].
    intros p Hne. now apply lookup_delete_ne.
Qed.

(** X4: with an engine that keeps the disk, a request changes no path
    but its temporary path; and when [os.remove] is not refused it
    leaves no file behind: no file is added, and when the temporary
    path was free the disk is unchanged. *)
Theorem request_leaves_no_file (w : World) (path : string) :
  temp_filename env file = inr path ->
  (forall whisper, whisper_model w = Some whisper -> engine_keeps_disk whisper) ->
  (forall p, p <> path -> fs (snd (post w)) !! p = fs w !! p) /\
  (remove_outcome env = RemoveOk ->
   fs (snd (post w)) ⊆ fs w /\
   (fs w !! path = None -> fs (snd (post w)) = fs w)).
Proof.
  intros Hpath Hkeep.
  destruct (POST_disk w path Hpath Hkeep) as [Hother Hok].
  split; [exact Hother|]. intros Hrm.
  destruct (Hok Hrm) as [-> | ->]; [auto|].
  split; [apply delete_subseteq | apply delete_id].
Qed.

(** X5: the handler calls the engine with [beam_size=5],
    [vad_filter=True], [min_silence_duration_ms=100] and the request's
    [language] only: an engine that answers these calls as [whisper]
    does gives the same answer and the same disk. *)
Theorem engine_is_called_with_fixed_parameters
    (w : World) (whisper whisper' : WhisperModel) :
  (forall path disk,
     transcribe whisper' path language 5 true 100 disk
     = transcribe whisper path language 5 true 100 disk) ->
  fst (post (with_model w (Some whisper'))) = fst (post (with_model w (Some whisper))) /\
  fs (snd (post (with_model w (Some whisper'))))
  = fs (snd (post (with_model w (Some whisper)))).
Proof.
  intros Hagree.
  destruct (Z_lt_le_dec (100 * MiB) (len (read file))) as [Hgt|Hle].
  { unfold post.
    rewrite (POST_too_large _ _ _ _ _ _ (with_model w (Some whisper')) whisper' eq_refl Hgt).
    now rewrite (POST_too_large _ _ _ _ _ _ (with_model w (Some whisper)) whisper eq_refl Hgt). }
  destruct (Z_lt_le_dec (len (read file)) KiB) as [Hlt|Hge].
  { unfold post.
    rewrite (POST_too_small _ _ _ _ _ _ (with_model w (Some whisper')) whisper' eq_refl Hlt).
    now rewrite (POST_too_small _ _ _ _ _ _ (with_model w (Some whisper)) whisper eq_refl Hlt). }
  destruct (temp_filename_defined env file) as (ext & _ & Hpath).
  unfold post.
  rewrite (POST_pipeline _ _ _ _ _ _ (with_model w (Some whisper')) whisper' _
             eq_refl (conj Hge Hle) Hpath).
  rewrite (POST_pipeline _ _ _ _ _ _ (with_model w (Some whisper)) whisper _
             eq_refl (conj Hge Hle) Hpath).
  unfold disk_at_cleanup. cbv zeta.
  destruct (write_outcome env); simpl; rewrite ?Hagree;
    destruct (cleanup_error env _ _); auto.
Qed.

(** X6: the engine is not called for an upload that could not be
    written or that fails the size check: the answer and the disk are
    the same whatever engine is loaded. *)
Theorem engine_not_called_without_the_file
    (w : World) (whisper whisper' : WhisperModel) :
  write_outcome env <> WriteOk \/ len (read file) < KiB \/ 100 * MiB < len (read file) ->
  fst (post (with_model w (Some whisper'))) = fst (post (with_model w (Some whisper))) /\
  fs (snd (post (with_model w (Some whisper'))))
  = fs (snd (post (with_model w (Some whisper)))).
Proof.
  intros Hno.
  destruct (Z_lt_le_dec (100 * MiB) (len (read file))) as [Hgt|Hle].
  { unfold post.
    rewrite (POST_too_large _ _ _ _ _ _ (with_model w (Some whisper')) whisper' eq_refl Hgt).
    now rewrite (POST_too_large _ _ _ _ _ _ (with_model w (Some whisper)) whisper eq_refl Hgt). }
  destruct (Z_lt_le_dec (len (read file)) KiB) as [Hlt|Hge].
  { unfold post.
    rewrite (POST_too_small _ _ _ _ _ _ (with_model w (Some whisper')) whisper' eq_refl Hlt).
    now rewrite (POST_too_small _ _ _ _ _ _ (with_model w (Some whisper)) whisper eq_refl Hlt). }
  destruct Hno as [Hno|[Hno|Hno]]; [|lia..].
  destruct (temp_filename_defined env file) as (ext & _ & Hpath).
  unfold post.
  rewrite (POST_pipeline _ _ _ _ _ _ (with_model w (Some whisper')) whisper' _
             eq_refl (conj Hge Hle) Hpath).
  rewrite (POST_pipeline _ _ _ _ _ _ (with_model w (Some whisper)) whisper _
             eq_refl (conj Hge Hle) Hpath).
  unfold disk_at_cleanup. cbv zeta.
  destruct (write_outcome env); [now elim Hno|..]; simpl;
    destruct (cleanup_error env _ _); auto.
Qed.


(** X8: the text of a 200 answer is already stripped: it neither starts
    nor ends with white space. *)
Theorem text_of_200_is_stripped (w : World) :
  status_code (fst (post w)) = 200 ->
  exists text,
    field "text" (content (fst (post w))) = Some (JStr text) /\
    strip text = text /\ head_space text = false /\ last_space text = false.
Proof.
  intros Hst.
  destruct (POST_outcomes w) as [H|[H|[H|(whisper & path & _ & _ & _ & H)]]];
    try (rewrite H in Hst; discriminate Hst).
  destruct H as [(msg & _ & H)|(_ & _ & [(msg & _ & H)|(segments & _ & _ & H)])];
    rewrite H in *; try discriminate Hst.
  eexists. split; [reflexivity|]. split; [apply strip_strip|].
  destruct (strip_trimmed (join " " (map Segment.text segments)))
    as (l & r & _ & _ & _ & Hh & Hl). auto.
Qed.


End Requests.

(** X10: requests that draw different UUIDs use different temporary
    paths, whatever their file names. *)
Theorem distinct_uuids_give_distinct_paths (env env' : Env) (file file' : UploadFile) :
  (uuid4 env < 2 ^ 128)%N -> (uuid4 env' < 2 ^ 128)%N ->
  uuid4 env <> uuid4 env' ->
  temp_filename env file <> temp_filename env' file'.
Proof.
  intros Hu Hu' Hne Heq. apply Hne.
  destruct (temp_filename_defined env file) as (ext & _ & H).
  destruct (temp_filename_defined env' file') as (ext' & _ & H').
  rewrite H, H' in Heq.
  assert (Heq' : "/tmp/whisper_" +:+ hex (uuid4 env) +:+ "." +:+ ext
                 = "/tmp/whisper_" +:+ hex (uuid4 env') +:+ "." +:+ ext')
    by congruence.
  clear Heq. apply (String.app_inj "/tmp/whisper_") in Heq'. rename Heq' into Heq.
  apply app_inj_length in Heq; [|unfold hex; now rewrite !hex_digits_length].
  rewrite <- (unhex_hex _ Hu), <- (unhex_hex _ Hu'). now rewrite Heq.
Qed.

(** X11: the extension of the temporary path is the longest suffix of
    the declared file name without a dot: it contains no dot, and the
    name is either the extension itself or ends with a dot followed by
    it. *)
Theorem extension_is_the_dotless_suffix (env : Env) (file : UploadFile) :
  exists ext,
    temp_filename env file
    = inr ("/tmp/whisper_" +:+ hex (uuid4 env) +:+ "." +:+ ext) /\
    contains "." ext = false /\
    (filename file = ext \/ exists pre, filename file = pre +:+ "." +:+ ext).
Proof.
  destruct (last_split_spec "." (filename file)) as (ext & Hlast & Hdot & Hname).
  exists ext. unfold temp_filename, getitem_last. rewrite Hlast. auto.
Qed.

(** ** Lifecycle, configuration and model listing *)

Section Lifecycle.
Context {F : FloatOps}.

Lemma POST_call_loaded_status (c : Call) (w : World) (whisper : WhisperModel) :
  whisper_model w = Some whisper ->
  In (status_code (fst (POST_call c w))) [200; 400; 500].
Proof.
  intros Hm. unfold POST_call.
  destruct (Z_lt_le_dec (100 * MiB) (len (read (call_file c)))) as [Hgt|Hle];
    [rewrite (POST_too_large _ _ _ _ _ _ _ _ Hm Hgt); simpl; tauto|].
  destruct (Z_lt_le_dec (len (read (call_file c))) KiB) as [Hlt|Hge];
    [rewrite (POST_too_small _ _ _ _ _ _ _ _ Hm Hlt); simpl; tauto|].
  destruct (POST_pipeline_status (call_env c) (call_file c) (call_model c)
    (call_response_format c) (call_language c) (call_timestamp_granularities c)
    w whisper Hm (conj Hge Hle)) as [-> | ->]; simpl; tauto.
Qed.

Lemma POST_call_keeps_globals (c : Call) (w : World) :
  whisper_model (snd (POST_call c w)) = whisper_model w /\
  MODEL_SIZE (snd (POST_call c w)) = MODEL_SIZE w.
Proof.
  unfold POST_call.
  destruct (POST_outcomes (call_env c) (call_file c) (call_model c)
    (call_response_format c) (call_language c) (call_timestamp_granularities c) w)
    as [H|[H|[H|(whisper & path & _ & _ & _ & H)]]]; try (rewrite H; auto; fail).
  destruct H as [(msg & _ & ->)|(_ & -> & _)]; auto.
Qed.

Lemma serve_cons (c : Call) (rest : list Call) (w : World) :
  serve (c :: rest) w
  = (fst (POST_call c w) :: fst (serve rest (snd (POST_call c w))),
     snd (serve rest (snd (POST_call c w)))).
Proof.
  simpl. destruct (POST_call c w) as [answer w1]. simpl.
  now destruct (serve rest w1).
Qed.

Lemma serve_keeps_globals (calls : list Call) (w : World) :
  whisper_model (snd (serve calls w)) = whisper_model w /\
  MODEL_SIZE (snd (serve calls w)) = MODEL_SIZE w.
Proof.
  revert w. induction calls as [|c rest IH]; intros w; [auto|].
  rewrite serve_cons. simpl.
  destruct (IH (snd (POST_call c w))) as [-> ->]. apply POST_call_keeps_globals.
Qed.

Lemma serve_unloaded (calls : list Call) (w : World) :
  whisper_model w = None ->
  Forall (fun a => a = EngineNotReady) (fst (serve calls w)) /\ snd (serve calls w) = w.
Proof.
  intros Hm. induction calls as [|c rest [IHa IHw]]; [split; [constructor|reflexivity]|].
  assert (Hp : POST_call c w = (EngineNotReady, w))
    by (unfold POST_call; now apply POST_unloaded).
  rewrite serve_cons, Hp. simpl. split; [|exact IHw].
  constructor; [reflexivity | exact IHa].
Qed.

Lemma serve_loaded (calls : list Call) (w : World) (whisper : WhisperModel) :
  whisper_model w = Some whisper ->
  Forall (fun a => In (status_code a) [200; 400; 500]) (fst (serve calls w)).
Proof.
  revert w. induction calls as [|c rest IH]; intros w Hm; [constructor|].
  rewrite serve_cons. simpl. constructor.
  - now apply (POST_call_loaded_status c w whisper).
  - apply IH. now rewrite (proj1 (POST_call_keeps_globals c w)).
Qed.

Lemma startup_failed (load : Loader) (environ : gmap string string) (w : World)
    (msg : string) :
  fst (load (MODEL_SIZE w) (DEVICE environ) (COMPUTE_TYPE environ) (fs w)) = inl msg ->
  whisper_model (lifespan_startup load environ w) = whisper_model w.
Proof.
  unfold lifespan_startup.
  destruct (load _ _ _ _) as [r disk]. simpl. now intros ->.
Qed.

Lemma startup_loaded (load : Loader) (environ : gmap string string) (w : World)
    (loaded : WhisperModel) :
  fst (load (MODEL_SIZE w) (DEVICE environ) (COMPUTE_TYPE environ) (fs w)) = inr loaded ->
  whisper_model (lifespan_startup load environ w) = Some loaded.
Proof.
  unfold lifespan_startup.
  destruct (load _ _ _ _) as [r disk]. simpl. now intros ->.
Qed.

Lemma startup_keeps_MODEL_SIZE (load : Loader) (environ : gmap string string)
    (w : World) :
  MODEL_SIZE (lifespan_startup load environ w) = MODEL_SIZE w.
Proof.
  unfold lifespan_startup.
  now destruct (load _ _ _ _) as [[msg|loaded] disk].
Qed.

(** X13: when the constructor of the model raises at startup, the server
    starts all the same and stays not ready: every request it serves is
    answered with 503 and [/health] reports [ready: false] afterwards. *)
Theorem failed_load_is_permanent (load : Loader) (environ : gmap string string)
    (disk : FS) (msg : string) (calls : list Call) :
  fst (load (getenv environ "WHISPER_MODEL" "small") (DEVICE environ)
         (COMPUTE_TYPE environ) disk) = inl msg ->
  Forall (fun a => a = EngineNotReady)
    (fst (serve calls (lifespan_startup load environ (module_imported environ disk)))) /\
  field "ready"
    (content (GET_health
       (snd (serve calls (lifespan_startup load environ (module_imported environ disk))))))
  = Some (JBool false).
Proof.
  intros Hload.
  pose proof (startup_failed load environ (module_imported environ disk) msg Hload) as Hm.
  simpl in Hm.
  destruct (serve_unloaded calls _ Hm) as [Ha Hw]. split; [exact Ha|].
  rewrite Hw. unfold GET_health, health_check. simpl. now rewrite Hm.
Qed.

(** X14: when the model loads at startup, no request is ever answered
    with 503, the loaded model stays in place and [/health] reports
    [ready: true], however many requests are served. *)
Theorem loaded_server_stays_ready (load : Loader) (environ : gmap string string)
    (disk : FS) (loaded : WhisperModel) (calls : list Call) :
  fst (load (getenv environ "WHISPER_MODEL" "small") (DEVICE environ)
         (COMPUTE_TYPE environ) disk) = inr loaded ->
  Forall (fun a => status_code a <> 503)
    (fst (serve calls (lifespan_startup load environ (module_imported environ disk)))) /\
  whisper_model
    (snd (serve calls (lifespan_startup load environ (module_imported environ disk))))
  = Some loaded /\
  field "ready"
    (content (GET_health
       (snd (serve calls (lifespan_startup load environ (module_imported environ disk))))))
  = Some (JBool true).
Proof.
  intros Hload.
  pose proof (startup_loaded load environ (module_imported environ disk) loaded Hload) as Hm.
  assert (Hm' : whisper_model
    (snd (serve calls (lifespan_startup load environ (module_imported environ disk))))
    = Some loaded) by now rewrite (proj1 (serve_keeps_globals calls _)).
  split; [|split; [exact Hm'|]].
  - eapply Forall_impl; [exact (serve_loaded calls _ loaded Hm)|].
    intros a Ha. simpl in Ha. intros H503. rewrite H503 in Ha.
    destruct Ha as [Ha|[Ha|[Ha|[]]]]; discriminate Ha.
  - unfold GET_health, health_check. simpl. now rewrite Hm'.
Qed.

(** X15: after [lifespan] has run to its end the model is unloaded,
    whether or not it had loaded: [/health] reports [ready: false] and a
    request would be answered with 503. *)
Theorem shutdown_unloads (load : Loader) (environ : gmap string string)
    (calls : list Call) (w : World) (c : Call) :
  whisper_model (snd (lifespan load environ calls w)) = None /\
  field "ready" (content (GET_health (snd (lifespan load environ calls w))))
  = Some (JBool false) /\
  fst (POST_call c (snd (lifespan load environ calls w))) = EngineNotReady.
Proof.
  assert (Hm : whisper_model (snd (lifespan load environ calls w)) = None)
    by (unfold lifespan; now destruct (serve calls _)).
  split; [exact Hm|]. split.
  - unfold GET_health, health_check. simpl. now rewrite Hm.
  - unfold POST_call. now rewrite (POST_unloaded _ _ _ _ _ _ _ Hm).
Qed.

(** X16: the model name that [/health] reports is the value of
    [WHISPER_MODEL], or [small] when the variable is unset; loading and
    serving requests never change it. *)
Theorem health_reports_configured_model (load : Loader)
    (environ : gmap string string) (disk : FS) (calls : list Call) :
  field "model"
    (content (GET_health
       (snd (serve calls (lifespan_startup load environ (module_imported environ disk))))))
  = Some (JStr (match environ !! "WHISPER_MODEL" with
                | Some value => value
                | None => "small"
                end)).
Proof.
  unfold GET_health, health_check. simpl.
  now rewrite (proj2 (serve_keeps_globals calls _)), startup_keeps_MODEL_SIZE.
Qed.

Lemma POST_call_disk (c : Call) (w : World) :
  (forall whisper, whisper_model w = Some whisper -> engine_keeps_disk whisper) ->
  (forall p, temp_filename (call_env c) (call_file c) <> inr p ->
     fs (snd (POST_call c w)) !! p = fs w !! p) /\
  (remove_outcome (call_env c) = RemoveOk -> fs (snd (POST_call c w)) ⊆ fs w).
Proof.
  intros Hkeep. unfold POST_call.
  destruct (temp_filename_defined (call_env c) (call_file c)) as (ext & _ & Hpath).
  destruct (POST_disk (call_env c) (call_file c) (call_model c)
    (call_response_format c) (call_language c) (call_timestamp_granularities c)
    w _ Hpath Hkeep) as [Hother Hok].
  split.
  - intros p Hp. apply Hother. intros ->. now apply Hp.
  - intros Hrm. destruct (Hok Hrm) as [-> | ->]; [reflexivity | apply delete_subseteq].
Qed.

(** X17: while an engine that keeps the disk is loaded, serving requests
    never changes a path that is not the temporary path of one of the
    requests; and when no [os.remove] is refused, it never adds a file
    to the disk. *)
Theorem serving_never_fills_the_disk (calls : list Call) (w : World) :
  (forall whisper, whisper_model w = Some whisper -> engine_keeps_disk whisper) ->
  (forall p,
     Forall (fun c => temp_filename (call_env c) (call_file c) <> inr p) calls ->
     fs (snd (serve calls w)) !! p = fs w !! p) /\
  (Forall (fun c => remove_outcome (call_env c) = RemoveOk) calls ->
   fs (snd (serve calls w)) ⊆ fs w).
Proof.
  revert w. induction calls as [|c rest IH]; intros w Hkeep; [auto|].
  rewrite serve_cons. simpl.
  destruct (POST_call_disk c w Hkeep) as [Hsame Hsub].
  destruct (IH (snd (POST_call c w))) as [IHsame IHsub].
  { intros whisper Hm. apply Hkeep.
    now rewrite <- (proj1 (POST_call_keeps_globals c w)). }
  split.
  - intros p Hp. inversion Hp as [|? ? Hc Hrest]; subst.
    rewrite (IHsame p Hrest). now apply Hsame.
  - intros Hrm. inversion Hrm as [|? ? Hc Hrest]; subst.
    transitivity (fs (snd (POST_call c w))); auto.
Qed.

End Lifecycle.

(** X18: [GET /v1/models] lists exactly one model, [whisper-1]; its
    [created] is the clock reading cut to whole seconds: for a reading
    that is not negative, at most the reading and less than one second
    below it. *)
Theorem list_models_created (now : Q) :
  (0 <= now)%Q ->
  exists created : Z,
    list_models now
    = TDict [ ("object", TStr "list");
              ("data", TList [ TDict [ ("id", TStr "whisper-1");
                                       ("object", TStr "model");
                                       ("created", TInt created);
                                       ("owned_by", TStr "local") ] ]) ] /\
    0 <= created /\
    (inject_Z created <= now)%Q /\ (now < inject_Z created + 1)%Q.
Proof.
  intros Hnow. exists (int_of_float now). split; [reflexivity|].
  destruct now as [n d]. unfold int_of_float, Qle, Qlt, Qplus, inject_Z in *.
  simpl in *. rewrite Z.mul_1_r in Hnow.
  rewrite Z.quot_div_nonneg by lia.
  pose proof (Z.div_mod n (Z.pos d) ltac:(lia)) as Hdm.
  pose proof (Z.mod_pos_bound n (Z.pos d) ltac:(lia)) as Hb.
  assert (0 <= n / Z.pos d) by (apply Z.div_pos; lia).
  repeat split; nia.
Qed.

(** ** The further properties at sample requests *)

Ltac not_equal := vm_compute; intros Hcmp; discriminate Hcmp.


Ltac keeps_disk :=
  intros whisper Hm; injection Hm as <-; intros path language disk; reflexivity.

(** A transcription on a disk that holds another file. *)
Lemma request_leaves_no_file_witness :
  temp_filename env_ok (upload 2048) = inr path_ok /\
  (forall whisper,
     whisper_model (world_with_notes (Some engine_hello)) = Some whisper ->
     engine_keeps_disk whisper) /\
  (forall p, p <> path_ok ->
     fs (snd (POST_transcriptions (F := exact_float) env_ok (upload 2048)
                "whisper-1" "json" None None (world_with_notes (Some engine_hello))))
       !! p
     = fs (world_with_notes (Some engine_hello)) !! p) /\
  (remove_outcome env_ok = RemoveOk ->
   fs (snd (POST_transcriptions (F := exact_float) env_ok (upload 2048)
              "whisper-1" "json" None None (world_with_notes (Some engine_hello))))
     ⊆ fs (world_with_notes (Some engine_hello)) /\
   (fs (world_with_notes (Some engine_hello)) !! path_ok = None ->
    fs (snd (POST_transcriptions (F := exact_float) env_ok (upload 2048)
               "whisper-1" "json" None None (world_with_notes (Some engine_hello))))
    = fs (world_with_notes (Some engine_hello)))).
Proof.
  split; [evaluate|].
  split; [keeps_disk|].
  apply (request_leaves_no_file (F := exact_float) env_ok (upload 2048)
           "whisper-1" "json" None None (world_with_notes (Some engine_hello)) path_ok).
  - evaluate.
  - keeps_disk.
Defined.

(** Two engines that agree on the handler's parameters. *)
Lemma engine_is_called_with_fixed_parameters_witness :
  (forall path disk,
     transcribe engine_picky path None 5 true 100 disk
     = transcribe engine_hello path None 5 true 100 disk) /\
  fst (POST_transcriptions (F := exact_float) env_ok (upload 2048)
         "whisper-1" "json" None None
         (with_model (world_with None) (Some engine_picky)))
  = fst (POST_transcriptions (F := exact_float) env_ok (upload 2048)
           "whisper-1" "json" None None
           (with_model (world_with None) (Some engine_hello))) /\
  fs (snd (POST_transcriptions (F := exact_float) env_ok (upload 2048)
             "whisper-1" "json" None None
             (with_model (world_with None) (Some engine_picky))))
  = fs (snd (POST_transcriptions (F := exact_float) env_ok (upload 2048)
               "whisper-1" "json" None None
               (with_model (world_with None) (Some engine_hello)))).
Proof.
  split; [reflexivity|].
  apply (engine_is_called_with_fixed_parameters (F := exact_float) env_ok
           (upload 2048) "whisper-1" "json" None None (world_with None)
           engine_hello engine_picky).
  reflexivity.
Defined.

(** [open] fails: a working and a broken engine answer alike. *)
Lemma engine_not_called_without_the_file_witness :
  (write_outcome env_open_fails <> WriteOk \/
   len (read (upload 2048)) < KiB \/ 100 * MiB < len (read (upload 2048))) /\
  fst (POST_transcriptions (F := exact_float) env_open_fails (upload 2048)
         "whisper-1" "json" None None
         (with_model (world_with None) (Some engine_broken)))
  = fst (POST_transcriptions (F := exact_float) env_open_fails (upload 2048)
           "whisper-1" "json" None None
           (with_model (world_with None) (Some engine_hello))) /\
  fs (snd (POST_transcriptions (F := exact_float) env_open_fails (upload 2048)
             "whisper-1" "json" None None
             (with_model (world_with None) (Some engine_broken))))
  = fs (snd (POST_transcriptions (F := exact_float) env_open_fails (upload 2048)
               "whisper-1" "json" None None
               (with_model (world_with None) (Some engine_hello)))).
Proof.
  split; [left; not_equal|].
  apply (engine_not_called_without_the_file (F := exact_float) env_open_fails
           (upload 2048) "whisper-1" "json" None None (world_with None)
           engine_hello engine_broken).
  left. not_equal.
Defined.


(** The text [Hello  world] of a 200 answer. *)
Lemma text_of_200_is_stripped_witness :
  status_code (fst (POST_transcriptions (F := exact_float) env_ok (upload 2048)
    "whisper-1" "json" None None (world_with (Some engine_hello)))) = 200 /\
  exists text,
    field "text"
      (content (fst (POST_transcriptions (F := exact_float) env_ok (upload 2048)
         "whisper-1" "json" None None (world_with (Some engine_hello)))))
    = Some (JStr text) /\
    strip text = text /\ head_space text = false /\ last_space text = false.
Proof.
  split; [evaluate|].
  apply (text_of_200_is_stripped (F := exact_float) env_ok (upload 2048)
           "whisper-1" "json" None None (world_with (Some engine_hello))).
  evaluate.
Defined.


(** The UUIDs 255 and 256, with the same file name. *)
Lemma distinct_uuids_give_distinct_paths_witness :
  (uuid4 env_ok < 2 ^ 128)%N /\ (uuid4 env_other_uuid < 2 ^ 128)%N /\
  uuid4 env_ok <> uuid4 env_other_uuid /\
  temp_filename env_ok (upload 2048) <> temp_filename env_other_uuid (upload 2048).
Proof.
  split; [evaluate|]. split; [evaluate|]. split; [not_equal|].
  apply (distinct_uuids_give_distinct_paths env_ok env_other_uuid
           (upload 2048) (upload 2048)).
  - evaluate.
  - evaluate.
  - not_equal.
Defined.

(** [WHISPER_MODEL=large-v3] with a constructor that knows [small] only. *)
Lemma failed_load_is_permanent_witness :
  fst (load_small (getenv environ_large "WHISPER_MODEL" "small") (DEVICE environ_large)
         (COMPUTE_TYPE environ_large) ∅) = inl "unknown model size" /\
  Forall (fun a => a = EngineNotReady)
    (fst (serve (F := exact_float) [call_ok 2048; call_ok 10]
            (lifespan_startup load_small environ_large
               (module_imported environ_large ∅)))) /\
  field "ready"
    (content (GET_health
       (snd (serve (F := exact_float) [call_ok 2048; call_ok 10]
               (lifespan_startup load_small environ_large
                  (module_imported environ_large ∅))))))
  = Some (JBool false).
Proof.
  split; [evaluate|].
  apply (failed_load_is_permanent (F := exact_float) load_small environ_large ∅
           "unknown model size" [call_ok 2048; call_ok 10]).
  evaluate.
Defined.

(** No variable set: the model [small] loads. *)
Lemma loaded_server_stays_ready_witness :
  fst (load_small (getenv ∅ "WHISPER_MODEL" "small") (DEVICE ∅) (COMPUTE_TYPE ∅) ∅)
  = inr engine_hello /\
  Forall (fun a => status_code a <> 503)
    (fst (serve (F := exact_float) [call_ok 2048; call_ok 10]
            (lifespan_startup load_small ∅ (module_imported ∅ ∅)))) /\
  whisper_model
    (snd (serve (F := exact_float) [call_ok 2048; call_ok 10]
            (lifespan_startup load_small ∅ (module_imported ∅ ∅))))
  = Some engine_hello /\
  field "ready"
    (content (GET_health
       (snd (serve (F := exact_float) [call_ok 2048; call_ok 10]
               (lifespan_startup load_small ∅ (module_imported ∅ ∅))))))
  = Some (JBool true).
Proof.
  split; [evaluate|].
  apply (loaded_server_stays_ready (F := exact_float) load_small ∅ ∅
           engine_hello [call_ok 2048; call_ok 10]).
  evaluate.
Defined.

(** Two requests on a disk that holds another file. *)
Lemma serving_never_fills_the_disk_witness :
  (forall whisper,
     whisper_model (world_with_notes (Some engine_hello)) = Some whisper ->
     engine_keeps_disk whisper) /\
  (forall p,
     Forall (fun c => temp_filename (call_env c) (call_file c) <> inr p)
       [call_ok 2048; call_ok 10] ->
     fs (snd (serve (F := exact_float) [call_ok 2048; call_ok 10]
                (world_with_notes (Some engine_hello)))) !! p
     = fs (world_with_notes (Some engine_hello)) !! p) /\
  (Forall (fun c => remove_outcome (call_env c) = RemoveOk)
     [call_ok 2048; call_ok 10] ->
   fs (snd (serve (F := exact_float) [call_ok 2048; call_ok 10]
              (world_with_notes (Some engine_hello))))
     ⊆ fs (world_with_notes (Some engine_hello))).
Proof.
  split; [keeps_disk|].
  apply (serving_never_fills_the_disk (F := exact_float) [call_ok 2048; call_ok 10]
           (world_with_notes (Some engine_hello))).
  keeps_disk.
Defined.

(** The clock reads one second and a half. *)
Lemma list_models_created_witness :
  (0 <= 3 # 2)%Q /\
  exists created : Z,
    list_models (3 # 2)
    = TDict [ ("object", TStr "list");
              ("data", TList [ TDict [ ("id", TStr "whisper-1");
                                       ("object", TStr "model");
                                       ("created", TInt created);
                                       ("owned_by", TStr "local") ] ]) ] /\
    0 <= created /\
    (inject_Z created <= 3 # 2)%Q /\ (3 # 2 < inject_Z created + 1)%Q.
Proof.
  split; [not_equal|]. apply (list_models_created (3 # 2)). not_equal.
Defined.
